(** * Virtual-environment backends of pdm: a shallow embedding

    Source: [src/pdm/cli/commands/venv/backends.py].

    The module creates virtual environments through four external tools
    (virtualenv, venv, conda, uv).  Its functions read and change the file
    system, cache the resolved interpreter on the backend object and spawn
    one process.  The embedding threads an explicit [World] (file system,
    the [cached_property] slot, a log of the externally visible events)
    through a state-and-exception monad [M]; Python exceptions are the
    constructors of [exn].

    Scope of the model:
    - strings are byte strings; [str.lower] is the ASCII lower-casing;
    - a path is the list of its components, already normalised (what
      [pathlib] holds after parsing); joining appends one component;
    - the file system is a finite tree; symbolic links hold an absolute
      target and are followed wherever the operating system follows them,
      with the usual bound on the length of a chain;
    - removing an entry needs the containing directory to be writable
      (the POSIX rule); reading never fails;
    - console output ([ui.echo], [ui.info]) is not part of the model. *)

From Stdlib Require Import String Ascii List Bool Arith ZArith Lia.
From Stdlib Require Import DecimalString.
Import ListNotations.
Local Open Scope string_scope.
Local Open Scope list_scope.

(** ** Python values *)

(** Truthiness of a [str | None] value, as tested by [if x:] and [x or y]. *)
Definition truthy (o : option string) : bool :=
  match o with
  | Some s => negb (s =? "")%string
  | None => false
  end.

(** [x or y] on strings. *)
Definition str_or (x y : string) : string :=
  if (x =? "")%string then y else x.

(** [str.lower] on ASCII letters; other bytes are left alone. *)
Definition lower_ascii (c : ascii) : ascii :=
  let n := nat_of_ascii c in
  if ((65 <=? n)%nat && (n <=? 90)%nat)%bool then ascii_of_nat (n + 32) else c.

Fixpoint lower (s : string) : string :=
  match s with
  | EmptyString => EmptyString
  | String c s' => String (lower_ascii c) (lower s')
  end.

(** [str(n)] for a non-negative integer. *)
Definition str_of_nat (n : nat) : string :=
  NilEmpty.string_of_uint (Nat.to_uint n).

(** ** Paths *)

Definition Path := list string.

(** [p / name] for a name that is one path component.  ([pathlib] parses
    its operand: a name with a separator gives several components and an
    absolute one replaces [p]; such operands are outside the model.) *)
Definition joinpath (p : Path) (name : string) : Path := p ++ [name].
Infix "//" := joinpath (at level 40, left associativity).

(** [p.name]: the last component, the empty string for the root. *)
Definition path_name (p : Path) : string := last p "".

(** [p.parent] together with [p.name]; [None] for the root. *)
Fixpoint split_last (p : Path) : option (Path * string) :=
  match p with
  | [] => None
  | c :: rest =>
    match split_last rest with
    | None => Some ([], c)
    | Some (pp, l) => Some (c :: pp, l)
    end
  end.

(** [str(p)] *)
Definition str_path (p : Path) : string := ("/" ++ String.concat "/" p)%string.

(** ** Exceptions *)

(** The subclasses of [OSError] the file-system primitives raise. *)
Inductive os_error :=
| FileNotFoundError
| NotADirectoryError
| IsADirectoryError
| FileExistsError
| PermissionError
| TooManyLinks          (* OSError(ELOOP) *)
| RmtreeOnSymlink.      (* OSError("Cannot call rmtree on a symbolic link") *)

(** [subprocess.CalledProcessError(returncode, cmd)] *)
Record CalledProcessError := {
  returncode : Z;
  cmd_of : list string
}.

(** The argument a [VirtualenvCreateError] is built from: a message, or
    the caught [CalledProcessError]. *)
Inductive create_error_arg :=
| Message (msg : string)
| Wrapped (e : CalledProcessError).

Inductive exn :=
| PdmUsageError (msg : string)
| VirtualenvCreateError (arg : create_error_arg)
| OSError (e : os_error)
| KeyError (key : string)
| IndexError (msg : string)
| ValueError (msg : string)
| OutsideFormatFragment.  (* a template outside the modelled part of str.format *)

(** ** The file system *)

#[local] Set Warnings "-register-all".

Inductive node :=
| File
| Special                                     (* fifo, socket, device *)
| Symlink (target : Path)
| Dir (writable : bool) (entries : list (string * node)).

Definition entries_t := list (string * node).

Fixpoint find_entry (c : string) (es : entries_t) : option node :=
  match es with
  | [] => None
  | (k, n) :: es' => if (k =? c)%string then Some n else find_entry c es'
  end.

(** Drop the first entry called [c]. *)
Fixpoint remove_entry (c : string) (es : entries_t) : entries_t :=
  match es with
  | [] => []
  | (k, n) :: es' => if (k =? c)%string then es' else (k, n) :: remove_entry c es'
  end.

(** Apply [g] to the first entry called [c]. *)
Fixpoint map_entry (c : string) (g : node -> node) (es : entries_t) : entries_t :=
  match es with
  | [] => []
  | (k, n) :: es' => if (k =? c)%string then (k, g n) :: es' else (k, n) :: map_entry c g es'
  end.

(** [lstat] along a path whose directories are real directories: no link
    is followed. *)
Fixpoint lookup (n : node) (p : Path) {struct p} : option node :=
  match p with
  | [] => Some n
  | c :: rest =>
    match n with
    | Dir _ es =>
      match find_entry c es with
      | Some m => lookup m rest
      | None => None
      end
    | _ => None
    end
  end.

(** Replace the node at [p] by [f] of it. *)
Fixpoint update (n : node) (p : Path) (f : node -> node) {struct p} : node :=
  match p with
  | [] => f n
  | c :: rest =>
    match n with
    | Dir w es => Dir w (map_entry c (fun m => update m rest f) es)
    | _ => n
    end
  end.

(** Path resolution as the kernel does it: walk the components from the
    root, restart at the target when a component is a symbolic link.
    [follow] says whether a link in the last component is followed
    ([stat]) or returned ([lstat]).  The result is the canonical path and
    the node found there. *)
Definition MAXSYMLINKS : nat := 40.

Fixpoint resolve_from (fuel : nat) (root : node) (follow : bool)
    (here : Path) (cur : node) (p : Path) {struct fuel}
  : os_error + (Path * node) :=
  match fuel with
  | 0 => inl TooManyLinks
  | S fuel' =>
    (fix go (here : Path) (cur : node) (p : Path) {struct p}
       : os_error + (Path * node) :=
       match p with
       | [] => inr (here, cur)
       | c :: rest =>
         match cur with
         | Dir _ es =>
           match find_entry c es with
           | None => inl FileNotFoundError
           | Some (Symlink t) =>
             match rest, follow with
             | [], false => inr (here ++ [c], Symlink t)
             | _, _ => resolve_from fuel' root follow [] root (t ++ rest)
             end
           | Some m => go (here ++ [c]) m rest
           end
         | _ => inl NotADirectoryError
         end
       end) here cur p
  end.

Definition resolve (root : node) (follow : bool) (p : Path)
  : os_error + (Path * node) :=
  resolve_from (S MAXSYMLINKS) root follow [] root p.

(** [Path.exists], [Path.is_dir], [Path.is_file]: all follow links and
    answer [False] when the path does not resolve. *)
Definition path_exists (root : node) (p : Path) : bool :=
  match resolve root true p with
  | inr _ => true
  | inl _ => false
  end.

Definition is_dir (root : node) (p : Path) : bool :=
  match resolve root true p with
  | inr (_, Dir _ _) => true
  | _ => false
  end.

Definition is_file (root : node) (p : Path) : bool :=
  match resolve root true p with
  | inr (_, File) => true
  | _ => false
  end.

(** [Path.iterdir]: the paths of the entries. *)
Definition iterdir (root : node) (p : Path) : os_error + list Path :=
  match resolve root true p with
  | inr (_, Dir _ es) => inr (map (fun e => p // fst e) es)
  | inr _ => inl NotADirectoryError
  | inl e => inl e
  end.

(** [os.scandir]: the entries, each with its path and what [lstat] sees. *)
Record DirEntry := {
  entry_path : Path;
  entry_node : node
}.

(** The entry [os.scandir(location)] yields for one directory entry. *)
Definition dir_entry (location : Path) (e : string * node) : DirEntry :=
  {| entry_path := location // fst e; entry_node := snd e |}.

Definition scandir (root : node) (p : Path) : os_error + list DirEntry :=
  match resolve root true p with
  | inr (_, Dir _ es) => inr (map (dir_entry p) es)
  | inr _ => inl NotADirectoryError
  | inl e => inl e
  end.

(** [DirEntry.is_symlink] *)
Definition entry_is_symlink (e : DirEntry) : bool :=
  match entry_node e with
  | Symlink _ => true
  | _ => false
  end.

(** [DirEntry.is_dir]: follows a link, so it consults the file system. *)
Definition entry_is_dir (root : node) (e : DirEntry) : bool :=
  match entry_node e with
  | Dir _ _ => true
  | Symlink _ => is_dir root (entry_path e)
  | _ => false
  end.

(** *** Primitives that change the tree

    Each returns the new tree and the error it raises, if any; a failed
    primitive may leave part of its work done ([shutil.rmtree] does). *)

Definition fs_result := (node * option os_error)%type.

(** [os.unlink], which is also [os.remove] and [Path.unlink]. *)
Definition os_unlink (root : node) (p : Path) : fs_result :=
  match split_last p with
  | None => (root, Some IsADirectoryError)
  | Some (pp, c) =>
    match resolve root true pp with
    | inl e => (root, Some e)
    | inr (rp, Dir w es) =>
      match find_entry c es with
      | None => (root, Some FileNotFoundError)
      | Some n =>
        if negb w then (root, Some PermissionError)
        else match n with
             | Dir _ _ => (root, Some IsADirectoryError)
             | _ => (update root rp (fun _ => Dir w (remove_entry c es)), None)
             end
      end
    | inr _ => (root, Some NotADirectoryError)
    end
  end.

Definition os_remove := os_unlink.

(** The recursive part of [shutil.rmtree]: delete the entries of a
    directory in scan order, descending into real directories and
    unlinking everything else; stop at the first refusal. *)
Fixpoint rmtree_contents (n : node) : node * option os_error :=
  match n with
  | Dir w es =>
    let fix go (es : entries_t) : entries_t * option os_error :=
      match es with
      | [] => ([], None)
      | (c, child) :: tl =>
        match child with
        | Dir _ _ =>
          match rmtree_contents child with
          | (child', Some e) => ((c, child') :: tl, Some e)
          | (child', None) =>
            if w then go tl else ((c, child') :: tl, Some PermissionError)
          end
        | _ => if w then go tl else (es, Some PermissionError)
        end
      end in
    let (es', err) := go es in (Dir w es', err)
  | _ => (n, Some NotADirectoryError)
  end.

(** [os.rmdir] of the directory at the canonical path [rp], once emptied. *)
Definition rmdir_at (root : node) (rp : Path) : fs_result :=
  match split_last rp with
  | None => (root, Some PermissionError)
  | Some (pp, c) =>
    match lookup root pp with
    | Some (Dir w es) =>
      if w then (update root pp (fun _ => Dir w (remove_entry c es)), None)
      else (root, Some PermissionError)
    | _ => (root, Some FileNotFoundError)
    end
  end.

(** [shutil.rmtree(path)] with the default [ignore_errors=False]. *)
Definition rmtree (root : node) (p : Path) : fs_result :=
  match resolve root false p with
  | inl e => (root, Some e)
  | inr (_, Symlink _) => (root, Some RmtreeOnSymlink)
  | inr (rp, Dir w es) =>
    match rmtree_contents (Dir w es) with
    | (d, Some e) => (update root rp (fun _ => d), Some e)
    | (d, None) => rmdir_at (update root rp (fun _ => d)) rp
    end
  | inr _ => (root, Some NotADirectoryError)
  end.

(** [os.mkdir] *)
Definition os_mkdir (root : node) (p : Path) : fs_result :=
  match split_last p with
  | None => (root, Some FileExistsError)
  | Some (pp, c) =>
    match resolve root true pp with
    | inl e => (root, Some e)
    | inr (rp, Dir w es) =>
      match find_entry c es with
      | Some _ => (root, Some FileExistsError)
      | None =>
        if w then (update root rp (fun _ => Dir w (es ++ [(c, Dir true [])])), None)
        else (root, Some PermissionError)
      end
    | inr _ => (root, Some NotADirectoryError)
    end
  end.

(** [Path.mkdir(exist_ok=True, parents=True)] of the path [rev rp]:
    try [os.mkdir]; on [FileNotFoundError] make the parent the same way
    and try once more; any other [OSError] is swallowed when the path is
    a directory by then. *)
Fixpoint mkdir_parents (root : node) (rp : list string) : fs_result :=
  let p := rev rp in
  match os_mkdir root p with
  | (root', None) => (root', None)
  | (_, Some FileNotFoundError) =>
    match rp with
    | [] => (root, Some FileNotFoundError)
    | _ :: rparent =>
      match mkdir_parents root rparent with
      | (root1, Some e) => (root1, Some e)
      | (root1, None) =>
        match os_mkdir root1 p with
        | (root2, None) => (root2, None)
        | (_, Some FileNotFoundError) => (root1, Some FileNotFoundError)
        | (_, Some e) => if is_dir root1 p then (root1, None) else (root1, Some e)
        end
      end
    end
  | (_, Some e) => if is_dir root p then (root, None) else (root, Some e)
  end.

Definition path_mkdir (root : node) (p : Path) : fs_result :=
  mkdir_parents root (rev p).

(** ** [str.format] with keyword arguments

    The modelled fragment: literal text, the escapes [{{] and [}}], and
    replacement fields holding a plain name.  A field with a conversion,
    a format specification, an attribute or an index is outside the
    fragment and reported as such. *)

Inductive fmt_mode :=
| Text
| AfterOpen
| AfterClose
| Field (acc : string).

Definition is_digit (c : ascii) : bool :=
  let n := nat_of_ascii c in ((48 <=? n)%nat && (n <=? 57)%nat)%bool.

Fixpoint all_digits (s : string) : bool :=
  match s with
  | EmptyString => true
  | String c s' => (is_digit c && all_digits s')%bool
  end.

Definition outside_fragment (c : ascii) : bool :=
  ((c =? ".")%char || (c =? "[")%char || (c =? "!")%char || (c =? ":")%char)%bool.

Definition get_field (kwargs : list (string * string)) (name : string) : exn + string :=
  if all_digits name then
    inl (IndexError "Replacement index out of range for positional args tuple")
  else
    match List.find (fun kv => (fst kv =? name)%string) kwargs with
    | Some kv => inr (snd kv)
    | None => inl (KeyError name)
    end.

Definition emit (s : string) (r : exn + string) : exn + string :=
  match r with
  | inr t => inr (s ++ t)%string
  | inl e => inl e
  end.

Fixpoint format_go (kwargs : list (string * string)) (mode : fmt_mode) (s : string)
  : exn + string :=
  match s with
  | EmptyString =>
    match mode with
    | Text => inr EmptyString
    | AfterOpen => inl (ValueError "Single '{' encountered in format string")
    | AfterClose => inl (ValueError "Single '}' encountered in format string")
    | Field _ => inl (ValueError "expected '}' before end of string")
    end
  | String c s' =>
    match mode with
    | Text =>
      if (c =? "{")%char then format_go kwargs AfterOpen s'
      else if (c =? "}")%char then format_go kwargs AfterClose s'
      else emit (String c EmptyString) (format_go kwargs Text s')
    | AfterOpen =>
      if (c =? "{")%char then emit "{" (format_go kwargs Text s')
      else if (c =? "}")%char then
        match get_field kwargs EmptyString with
        | inr v => emit v (format_go kwargs Text s')
        | inl e => inl e
        end
      else if outside_fragment c then inl OutsideFormatFragment
      else format_go kwargs (Field (String c EmptyString)) s'
    | AfterClose =>
      if (c =? "}")%char then emit "}" (format_go kwargs Text s')
      else inl (ValueError "Single '}' encountered in format string")
    | Field acc =>
      if (c =? "}")%char then
        match get_field kwargs acc with
        | inr v => emit v (format_go kwargs Text s')
        | inl e => inl e
        end
      else if (c =? "{")%char then inl (ValueError "unexpected '{' in field name")
      else if outside_fragment c then inl OutsideFormatFragment
      else format_go kwargs (Field (acc ++ String c EmptyString)%string) s'
    end
  end.

Definition str_format (template : string) (kwargs : list (string * string))
  : exn + string :=
  format_go kwargs Text template.

(** ** The collaborators *)

Definition Version := (nat * nat * nat)%type.

(** [pdm.models.python.PythonInfo], the attributes read here. *)
Record PythonInfo := {
  executable : Path;
  identifier : string;
  valid : bool;
  version : Version
}.

Definition major (py : PythonInfo) : nat := fst (fst (version py)).
Definition minor (py : PythonInfo) : nat := snd (fst (version py)).

(** What [subprocess.check_call] can do: the process ran and exited, or
    it could not be started. *)
Inductive proc_outcome :=
| Exited (code : Z)
| LaunchFailed (e : os_error).

(** The project, with the pieces of the host the backends read through
    it.  All of these are owned by code outside this module and taken as
    given. *)
Record Project := {
  root : Path;                                   (* project.root *)
  _python : option PythonInfo;                   (* project._python *)
  python_requires : Version -> bool;             (* python_requires.contains(v, True) *)
  venv_location : Path;                          (* Path(config["venv.location"]).expanduser() *)
  use_python_version : bool;                     (* config["python.use_python_version"] *)
  discovered : option string -> bool -> list PythonInfo;
                                                 (* what discovery finds for a spec *)
  venv_prefix : string;                          (* get_venv_prefix(project) *)
  uv_cmd : list string;                          (* project.core.uv_cmd *)
  sys_executable : string;                       (* sys.executable *)
  run_process : list string -> node -> proc_outcome * node
                                                 (* the spawned tool, acting on the file system *)
}.

(** ** The world and the monad *)

Inductive event :=
| Discover (spec : option string) (respect_version_file : bool)
| Spawn (cmd : list string).

Record World := {
  fs : node;
  resolved_cache : option PythonInfo;   (* the cached_property slot *)
  log : list event
}.

Definition with_fs (w : World) (r : node) : World :=
  {| fs := r; resolved_cache := resolved_cache w; log := log w |}.

Definition with_cache (w : World) (c : option PythonInfo) : World :=
  {| fs := fs w; resolved_cache := c; log := log w |}.

Definition with_event (w : World) (e : event) : World :=
  {| fs := fs w; resolved_cache := resolved_cache w; log := log w ++ [e] |}.

Definition M (A : Type) : Type := World -> (exn + A) * World.

Definition ret {A} (a : A) : M A := fun w => (inr a, w).

Definition raise {A} (e : exn) : M A := fun w => (inl e, w).

Definition bind {A B} (c : M A) (k : A -> M B) : M B :=
  fun w =>
    match c w with
    | (inr a, w') => k a w'
    | (inl e, w') => (inl e, w')
    end.

Notation "x <- c ;; k" := (bind c (fun x => k))
  (at level 61, c at next level, right associativity).
Notation "c ;;; k" := (bind c (fun _ => k))
  (at level 61, right associativity).

(** A value or exception computed without touching the world. *)
Definition lift {A} (r : exn + A) : M A := fun w => (r, w).

(** A file-system primitive run on the current tree. *)
Definition fs_op (f : node -> fs_result) : M unit :=
  fun w =>
    match f (fs w) with
    | (r, None) => (inr tt, with_fs w r)
    | (r, Some e) => (inl (OSError e), with_fs w r)
    end.

(** A query of the current tree. *)
Definition fs_get {A} (f : node -> A) : M A := fun w => (inr (f (fs w)), w).

Definition emit_event (e : event) : M unit := fun w => (inr tt, with_event w e).

Definition fs_try {A} (f : node -> os_error + A) : M A :=
  fun w =>
    match f (fs w) with
    | inr a => (inr a, w)
    | inl e => (inl (OSError e), w)
    end.

(** [for x in xs: body(x)] *)
Fixpoint for_each {A} (xs : list A) (body : A -> M unit) : M unit :=
  match xs with
  | [] => ret tt
  | x :: xs' => body x ;;; for_each xs' body
  end.

(** The string inside a [str | None] known to be truthy. *)
Definition the_str (o : option string) : string :=
  match o with
  | Some s => s
  | None => EmptyString
  end.

(** ** The backends *)

Inductive backend_kind :=
| VirtualenvBackend
| VenvBackend
| UvBackend
| CondaBackend.

(** [Backend.__init__(project, python)] *)
Record Backend := {
  kind : backend_kind;
  project : Project;
  python : option string
}.

Definition BACKENDS (name : string) : option backend_kind :=
  if (name =? "virtualenv")%string then Some VirtualenvBackend
  else if (name =? "venv")%string then Some VenvBackend
  else if (name =? "conda")%string then Some CondaBackend
  else if (name =? "uv")%string then Some UvBackend
  else None.

Definition pip_args (k : backend_kind) (with_pip : bool) : list string :=
  match k with
  | VirtualenvBackend =>
    if with_pip then [] else ["--no-pip"; "--no-setuptools"; "--no-wheel"]
  | VenvBackend =>
    if with_pip then [] else ["--without-pip"]
  | UvBackend =>
    if with_pip then ["--seed"] else []
  | CondaBackend =>
    if with_pip then ["pip"] else []
  end.

(** Modelled from the spec: [Project.iter_interpreters] is not under src/.
    It iterates the candidate interpreters of the project's discovery
    mechanism for the given spec and yields, in order, those accepted by
    [filter_func].  The call is recorded in the log. *)
Definition iter_interpreters (p : Project) (python_spec : option string)
    (filter_func : PythonInfo -> bool) (respect_version_file : bool)
  : M (list PythonInfo) :=
  emit_event (Discover python_spec respect_version_file) ;;;
  ret (filter filter_func (discovered p python_spec respect_version_file)).

Definition match_func (b : Backend) (py_version : PythonInfo) : bool :=
  truthy (python b)
  || (valid py_version && python_requires (project b) (version py_version)).

(** Lines 36-53: the function under the [cached_property] decorator. *)
Definition _resolved_interpreter_func (b : Backend) : M PythonInfo :=
  let search : M PythonInfo :=
    let respect_version_file := use_python_version (project b) in
    found <- iter_interpreters (project b) (python b) (match_func b)
               respect_version_file ;;
    match found with
    | py_version :: _ => ret py_version
    | [] =>
      let python := if truthy (python b) then (" " ++ the_str (python b))%string
                    else EmptyString in
      raise (VirtualenvCreateError
               (Message ("Can't resolve python interpreter" ++ python)%string))
    end in
  if negb (truthy (python b)) then
    match _python (project b) with
    | Some project_python => ret project_python
    | None => search
    end
  else search.

(** [functools.cached_property]: the first successful value is stored on
    the object and returned from then on. *)
Definition cached_property (func : M PythonInfo) : M PythonInfo :=
  fun w =>
    match resolved_cache w with
    | Some v => (inr v, w)
    | None =>
      match func w with
      | (inr v, w') => (inr v, with_cache w' (Some v))
      | (inl e, w') => (inl e, w')
      end
    end.

Definition _resolved_interpreter (b : Backend) : M PythonInfo :=
  cached_property (_resolved_interpreter_func b).

(** [Backend.ident] *)
Definition Backend_ident (b : Backend) : M string :=
  py <- _resolved_interpreter b ;;
  ret (identifier py).

(** [ident], with the override of [CondaBackend]. *)
Definition ident (b : Backend) : M string :=
  match kind b with
  | CondaBackend =>
    if truthy (python b) then ret (the_str (python b))
    else Backend_ident b
  | _ => Backend_ident b
  end.

Definition subprocess_call (b : Backend) (cmd : list string) : M unit :=
  fun w =>
    let w1 := with_event w (Spawn cmd) in
    match run_process (project b) cmd (fs w1) with
    | (Exited code, r) =>
      if (code =? 0)%Z then (inr tt, with_fs w1 r)
      else (inl (VirtualenvCreateError
                   (Wrapped {| returncode := code; cmd_of := cmd |})),
            with_fs w1 r)
    | (LaunchFailed e, r) => (inl (OSError e), with_fs w1 r)
    end.

(** [any(location.iterdir())]: a [Path] object is always true. *)
Definition any_path (ps : list Path) : bool :=
  match ps with
  | [] => false
  | _ :: _ => true
  end.

(** The body of the loop of [_ensure_clean], lines 96-99. *)
Definition clean_entry (entry : DirEntry) : M unit :=
  d <- fs_get (fun r => entry_is_dir r entry) ;;
  if d && negb (entry_is_symlink entry) then
    fs_op (fun r => rmtree r (entry_path entry))
  else
    fs_op (fun r => os_remove r (entry_path entry)).

Definition not_empty_message (location : Path) : string :=
  ("The location " ++ str_path location
   ++ " is not empty, add --force to overwrite it.")%string.

Definition _ensure_clean (b : Backend) (location : Path) (force : bool) : M unit :=
  ex <- fs_get (fun r => path_exists r location) ;;
  if negb ex then ret tt else
  d <- fs_get (fun r => is_dir r location) ;;
  empty_dir <- (if d then
                  found <- fs_try (fun r => iterdir r location) ;;
                  ret (negb (any_path found))
                else ret false) ;;
  if empty_dir then ret tt else
  if negb force then
    raise (VirtualenvCreateError (Message (not_empty_message location)))
  else
  f <- fs_get (fun r => is_file r location) ;;
  if f then fs_op (fun r => os_unlink r location)
  else
    entries <- fs_try (fun r => scandir r location) ;;
    for_each entries clean_entry.

Definition get_location (b : Backend) (name venv_name : option string) : M Path :=
  if truthy name && truthy venv_name then
    raise (PdmUsageError "Cannot specify both name and venv_name")
  else
  let venv_parent := venv_location (project b) in
  d <- fs_get (fun r => is_dir r venv_parent) ;;
  (if negb d then fs_op (fun r => path_mkdir r venv_parent) else ret tt) ;;;
  venv_name <- (if negb (truthy venv_name) then
                  n <- (if truthy name then ret (the_str name) else ident b) ;;
                  ret (venv_prefix (project b) ++ n)%string
                else ret (the_str venv_name)) ;;
  ret (venv_parent // venv_name).

(** [prompt_option = (f"--prompt={prompt}",) if prompt else ()] *)
Definition prompt_option (prompt : option string) : list string :=
  if truthy prompt then [("--prompt=" ++ the_str prompt)%string] else [].

Definition conda_usage_message : string :=
  "Cannot use python= in conda creation arguments".

Definition perform_create (b : Backend) (location : Path) (args : list string)
    (prompt : option string) : M unit :=
  match kind b with
  | VirtualenvBackend =>
    py <- _resolved_interpreter b ;;
    subprocess_call b
      ([sys_executable (project b); "-m"; "virtualenv"; str_path location;
        "-p"; str_path (executable py)]
       ++ prompt_option prompt ++ args)
  | VenvBackend =>
    py <- _resolved_interpreter b ;;
    subprocess_call b
      ([str_path (executable py); "-m"; "venv"; str_path location]
       ++ prompt_option prompt ++ args)
  | UvBackend =>
    py <- _resolved_interpreter b ;;
    subprocess_call b
      (uv_cmd (project b) ++ ["venv"; "-p"; str_path (executable py)]
       ++ prompt_option prompt ++ args ++ [str_path location])
  | CondaBackend =>
    python_ver <- (if truthy (python b) then ret (the_str (python b))
                   else
                     python <- _resolved_interpreter b ;;
                     ret (str_of_nat (major python) ++ "."
                          ++ str_of_nat (minor python))%string) ;;
    if existsb (String.prefix "python=") args then
      raise (PdmUsageError conda_usage_message)
    else
      subprocess_call b
        (["conda"; "create"; "--yes"; "--prefix"; str_path location;
          ("python=" ++ python_ver)%string] ++ args)
  end.

(** Lines 126-130 of [create]: the prompt template, when there is one, is
    formatted with [project_name] and [python_version]. *)
Definition format_prompt (b : Backend) (prompt : option string) : M (option string) :=
  match prompt with
  | Some template =>
    let project_name := str_or (lower (path_name (root (project b)))) "virtualenv" in
    python_version <- ident b ;;
    s <- lift (str_format template
                 [("project_name", project_name); ("python_version", python_version)]) ;;
    ret (Some s)
  | None => ret None
  end.

Definition create (b : Backend) (name : option string) (args : list string)
    (force in_project : bool) (prompt : option string) (with_pip : bool)
    (venv_name : option string) : M Path :=
  location <- (if in_project then ret (root (project b) // ".venv")
               else get_location b name venv_name) ;;
  let args := pip_args (kind b) with_pip ++ args in
  prompt <- format_prompt b prompt ;;
  _ensure_clean b location force ;;;
  perform_create b location args prompt ;;;
  ret location.

(** ** Sample data: a project, a tree and a few backends to run the model on *)

Definition sample_python : PythonInfo :=
  {| executable := ["usr"; "bin"; "python3.11"];
     identifier := "3.11.2";
     valid := true;
     version := (3, 11, 2) |}.

Definition broken_python : PythonInfo :=
  {| executable := ["opt"; "broken"; "python"];
     identifier := "0.0.0";
     valid := false;
     version := (0, 0, 0) |}.

(** A tool that always exits with the given status and writes nothing. *)
Definition exits_with (code : Z) : list string -> node -> proc_outcome * node :=
  fun _ r => (Exited code, r).

Definition sample_project_with (pinned : option PythonInfo)
    (found : list PythonInfo) (run : list string -> node -> proc_outcome * node)
  : Project :=
  {| root := ["home"; "me"; "MyApp"];
     _python := pinned;
     python_requires := fun v => (3 <=? fst (fst v))%nat;
     venv_location := ["home"; "me"; "venvs"];
     use_python_version := true;
     discovered := fun _ _ => found;
     venv_prefix := "MyApp-ab12-";
     uv_cmd := ["uv"];
     sys_executable := "/usr/bin/python3";
     run_process := run |}.

Definition sample_project : Project :=
  sample_project_with (Some sample_python) [] (exits_with 0).

(** The same project rooted at [/], whose folder name is empty. *)
Definition root_project : Project :=
  {| root := [];
     _python := Some sample_python;
     python_requires := fun v => (3 <=? fst (fst v))%nat;
     venv_location := ["home"; "me"; "venvs"];
     use_python_version := true;
     discovered := fun _ _ => [];
     venv_prefix := "root-ab12-";
     uv_cmd := ["uv"];
     sys_executable := "/usr/bin/python3";
     run_process := exits_with 0 |}.

(** /home/me/MyApp/.venv holds a file, a link to /home/me/locked and a
    directory; /home/me/venvs is empty; /home/me/locked is read-only and
    holds a file. *)
Definition sample_tree : node :=
  Dir true
    [("home", Dir true
       [("me", Dir true
          [("MyApp", Dir true
             [(".venv", Dir true
                [("pyvenv.cfg", File);
                 ("cache", Symlink ["home"; "me"; "locked"]);
                 ("lib", Dir true [("site.py", File)])])]);
           ("venvs", Dir true []);
           ("locked", Dir false [("keep", File)])])])].

(** The same tree without the project's .venv. *)
Definition bare_tree : node :=
  Dir true
    [("home", Dir true
       [("me", Dir true
          [("MyApp", Dir true []);
           ("venvs", Dir true []);
           ("locked", Dir false [("keep", File)])])])].

(** [sample_tree] once the project's .venv has been emptied. *)
Definition cleaned_tree : node :=
  Dir true
    [("home", Dir true
       [("me", Dir true
          [("MyApp", Dir true [(".venv", Dir true [])]);
           ("venvs", Dir true []);
           ("locked", Dir false [("keep", File)])])])].

(** A home directory in which no venv root has been made yet. *)
Definition fresh_tree : node :=
  Dir true [("home", Dir true [("me", Dir true [("MyApp", Dir true [])])])].

(** A tree whose .venv is read-only and holds a file. *)
Definition locked_tree : node :=
  Dir true
    [("home", Dir true
       [("me", Dir true
          [("MyApp", Dir true [(".venv", Dir false [("pyvenv.cfg", File)])]);
           ("venvs", Dir true [])])])].

(** A tool that cannot be started (its executable is missing). *)
Definition cannot_start : list string -> node -> proc_outcome * node :=
  fun _ r => (LaunchFailed FileNotFoundError, r).



Definition world_of (r : node) : World :=
  {| fs := r; resolved_cache := None; log := [] |}.

Definition backend_of (k : backend_kind) (spec : option string) : Backend :=
  {| kind := k; project := sample_project; python := spec |}.

(** ** Notions used to state the properties *)

(** The commands handed to [subprocess.check_call], oldest first. *)
Fixpoint spawned (l : list event) : list (list string) :=
  match l with
  | [] => []
  | Spawn cmd :: l' => cmd :: spawned l'
  | Discover _ _ :: l' => spawned l'
  end.

(** A field name of the modelled fragment: no brace, no character that
    starts a conversion, specification, attribute or index. *)
Definition plain_char (c : ascii) : bool :=
  negb ((c =? "{")%char || (c =? "}")%char || outside_fragment c).

Fixpoint plain_chars (s : string) : bool :=
  match s with
  | EmptyString => true
  | String c s' => plain_char c && plain_chars s'
  end.


(** The location is in the way: it exists and is not an empty directory. *)
Definition occupied (r : node) (location : Path) : bool :=
  path_exists r location
  && negb (is_dir r location
           && match iterdir r location with
              | inr [] => true
              | _ => false
              end).

Definition is_symlink (n : node) : bool :=
  match n with
  | Symlink _ => true
  | _ => false
  end.

(** Induction on trees, with the hypothesis for every entry of a directory. *)
Section NodeInduction.
Variable P : node -> Prop.
Hypothesis HFile : P File.
Hypothesis HSpecial : P Special.
Hypothesis HSymlink : forall t, P (Symlink t).
Hypothesis HDir : forall w es, Forall (fun e => P (snd e)) es -> P (Dir w es).

End NodeInduction.

(** A computation that hands no command to [subprocess.check_call]. *)
Definition quiet {A} (c : M A) : Prop :=
  forall w, spawned (log (snd (c w))) = spawned (log w).

(** Every exception a computation raises satisfies [P]. *)
Definition raises_only {A} (P : exn -> Prop) (c : M A) : Prop :=
  forall w e w', c w = (inl e, w') -> P e.

(** The message of a failed interpreter resolution. *)
Definition resolution_message (b : Backend) : string :=
  ("Can't resolve python interpreter"
   ++ (if truthy (python b) then " " ++ the_str (python b) else ""))%string.

(** Where a [VirtualenvCreateError] can come from. *)
Inductive creation_error_origin (b : Backend) (force : bool)
  : create_error_arg -> Prop :=
| tool_exit_status (e : CalledProcessError) :
    returncode e <> 0%Z -> creation_error_origin b force (Wrapped e)
| location_occupied (location : Path) :
    force = false ->
    creation_error_origin b force (Message (not_empty_message location))
| resolution_failed :
    creation_error_origin b force (Message (resolution_message b)).

Definition creation_errors_accounted (b : Backend) (force : bool) (e : exn) : Prop :=
  match e with
  | VirtualenvCreateError a => creation_error_origin b force a
  | _ => True
  end.

(** Lines 121-131 of [create]: everything before the tool is invoked. *)
Definition create_preparation (b : Backend) (name : option string)
    (force in_project : bool) (prompt : option string)
    (venv_name : option string) : M (Path * option string) :=
  location <- (if in_project then ret (root (project b) // ".venv")
               else get_location b name venv_name) ;;
  prompt <- format_prompt b prompt ;;
  _ensure_clean b location force ;;;
  ret (location, prompt).

(** Two nodes that path resolution cannot tell apart: the same file,
    special file or link, or two directories. *)
Definition same_kind (n m : node) : Prop :=
  match n, m with
  | File, File => True
  | Special, Special => True
  | Symlink t, Symlink u => t = u
  | Dir _ _, Dir _ _ => True
  | _, _ => False
  end.

(** [r1] has everything [r] has, at the same paths. *)
Definition grows (r r1 : node) : Prop :=
  forall q n, lookup r q = Some n ->
    exists n1, lookup r1 q = Some n1 /\ same_kind n n1.

(** The path resolves to a directory that holds nothing. *)
Definition fresh_dir (r : node) (p : Path) : Prop :=
  exists rp, resolve r true p = inr (rp, Dir true []).


(** A template without braces. *)
Fixpoint brace_free (s : string) : bool :=
  match s with
  | EmptyString => true
  | String c s' => negb ((c =? "{")%char || (c =? "}")%char) && brace_free s'
  end.

(** Starting from [w], the run [r] handed exactly one command to the
    process layer if it succeeded, and at most one if it failed. *)
Definition one_spawn_at_most {A} (w : World) (r : (exn + A) * World) : Prop :=
  match fst r with
  | inr _ => exists cmd, spawned (log (snd r)) = spawned (log w) ++ [cmd]
  | inl _ =>
    spawned (log (snd r)) = spawned (log w)
    \/ exists cmd, spawned (log (snd r)) = spawned (log w) ++ [cmd]
  end.


(** How many times discovery has been asked for interpreters. *)
Fixpoint discoveries (l : list event) : nat :=
  match l with
  | [] => 0
  | Discover _ _ :: l' => S (discoveries l')
  | Spawn _ :: l' => discoveries l'
  end.

(** A computation that resolves no interpreter: the slot of the cache is
    left alone and discovery is not asked. *)
Definition resolves_nothing {A} (c : M A) : Prop :=
  forall w,
    resolved_cache (snd (c w)) = resolved_cache w
    /\ discoveries (log (snd (c w))) = discoveries (log w).

(** The command line each tool is to be started with, for the resolved
    interpreter [py], the formatted prompt and the arguments after the
    flags for pip have been put in front. *)
Definition expected_command (b : Backend) (py : PythonInfo) (location : Path)
    (prompt : option string) (extra : list string) : list string :=
  let flag := match prompt with
              | Some p => if (p =? "")%string then []
                          else [("--prompt=" ++ p)%string]
              | None => []
              end in
  match kind b with
  | VirtualenvBackend =>
    [sys_executable (project b); "-m"; "virtualenv"; str_path location;
     "-p"; str_path (executable py)] ++ flag ++ extra
  | VenvBackend =>
    [str_path (executable py); "-m"; "venv"; str_path location] ++ flag ++ extra
  | UvBackend =>
    uv_cmd (project b) ++ ["venv"; "-p"; str_path (executable py)]
    ++ flag ++ extra ++ [str_path location]
  | CondaBackend =>
    ["conda"; "create"; "--yes"; "--prefix"; str_path location;
     ("python="
      ++ match python b with
         | Some spec =>
           if (spec =? "")%string
           then str_of_nat (major py) ++ "." ++ str_of_nat (minor py)
           else spec
         | None => str_of_nat (major py) ++ "." ++ str_of_nat (minor py)
         end)%string] ++ extra
  end.

(** A string that [pathlib] takes as one path component: it holds no
    separator and is neither empty nor [.]. *)
Fixpoint has_separator (s : string) : bool :=
  match s with
  | EmptyString => false
  | String c s' => (c =? "/")%char || has_separator s'
  end.

Definition single_component (s : string) : bool :=
  negb (has_separator s) && negb (s =? "")%string && negb (s =? ".")%string.


(** ** Running the monad: basic equations *)

Lemma bind_ok {A B} (c : M A) (k : A -> M B) w a w' :
  c w = (inr a, w') -> bind c k w = k a w'.
Proof. intros H. unfold bind. now rewrite H. Qed.

Lemma bind_err {A B} (c : M A) (k : A -> M B) w e w' :
  c w = (inl e, w') -> bind c k w = (inl e, w').
Proof. intros H. unfold bind. now rewrite H. Qed.

Lemma truthy_some s : truthy (Some s) = true <-> s <> EmptyString.
Proof.
  unfold truthy. rewrite negb_true_iff. split.
  - intros H ->. discriminate.
  - intros H. apply String.eqb_neq. exact H.
Qed.

(** ** C5: the table of pip flags *)

(** C5. For each of the four backends the flags for with-pip on and off are
    the ones of the table, and no flag of the one list occurs in the
    other.  [pip_args] is a function of the backend and the boolean alone,
    so the answer is determined by them. *)
Theorem pip_args_table :
  pip_args VirtualenvBackend true = []
  /\ pip_args VirtualenvBackend false = ["--no-pip"; "--no-setuptools"; "--no-wheel"]
  /\ pip_args VenvBackend true = []
  /\ pip_args VenvBackend false = ["--without-pip"]
  /\ pip_args UvBackend true = ["--seed"]
  /\ pip_args UvBackend false = []
  /\ pip_args CondaBackend true = ["pip"]
  /\ pip_args CondaBackend false = []
  /\ (forall k flag, In flag (pip_args k true) -> ~ In flag (pip_args k false)).
Proof.
  repeat split; try reflexivity.
  intros k flag; destruct k; simpl; tauto.
Qed.

(** ** Interpreter resolution *)

Lemma cached_property_hit func w v :
  resolved_cache w = Some v -> cached_property func w = (inr v, w).
Proof. intros H. unfold cached_property. now rewrite H. Qed.

Lemma cached_property_miss_ok func w v w' :
  resolved_cache w = None -> func w = (inr v, w') ->
  cached_property func w = (inr v, with_cache w' (Some v)).
Proof. intros H Hf. unfold cached_property. now rewrite H, Hf. Qed.

Lemma cached_property_miss_err func w e w' :
  resolved_cache w = None -> func w = (inl e, w') ->
  cached_property func w = (inl e, w').
Proof. intros H Hf. unfold cached_property. now rewrite H, Hf. Qed.

(** With a spec every candidate passes the filter. *)
Lemma match_func_with_spec b :
  truthy (python b) = true -> forall l, filter (match_func b) l = l.
Proof.
  intros H l. induction l as [|x l IH]; simpl; [reflexivity|].
  unfold match_func at 1. rewrite H. simpl. now rewrite IH.
Qed.

(** C4. On a backend that has not resolved yet: (1) without a spec and
    with a pinned interpreter, resolution returns the pinned interpreter
    and the log gains no discovery event; (2) with a spec, the first
    candidate of discovery is returned whatever its validity and version;
    (3) when discovery yields no accepted candidate (and the pinned
    shortcut does not apply), resolution raises the creation error whose
    message ends with the spec that was tried. *)
Theorem interpreter_resolution (b : Backend) (w : World) :
  resolved_cache w = None ->
  (truthy (python b) = false ->
   forall pinned, _python (project b) = Some pinned ->
     _resolved_interpreter b w = (inr pinned, with_cache w (Some pinned)))
  /\ (truthy (python b) = true ->
      forall first others,
        discovered (project b) (python b) (use_python_version (project b))
          = first :: others ->
        fst (_resolved_interpreter b w) = inr first)
  /\ ((truthy (python b) = true \/ _python (project b) = None) ->
      filter (match_func b)
        (discovered (project b) (python b) (use_python_version (project b))) = [] ->
      fst (_resolved_interpreter b w)
      = inl (VirtualenvCreateError
               (Message ("Can't resolve python interpreter"
                         ++ (if truthy (python b)
                             then " " ++ the_str (python b) else ""))%string))).
Proof.
  intros Hc. unfold _resolved_interpreter. repeat split.
  - intros Hs pinned Hp.
    apply cached_property_miss_ok; [exact Hc|].
    unfold _resolved_interpreter_func. rewrite Hs, Hp. reflexivity.
  - intros Hs first others Hd.
    unfold cached_property. rewrite Hc.
    unfold _resolved_interpreter_func. rewrite Hs. simpl.
    unfold iter_interpreters, bind, emit_event, ret. simpl.
    rewrite (match_func_with_spec b Hs), Hd. reflexivity.
  - intros Hs Hf.
    unfold cached_property. rewrite Hc.
    assert (Hsearch :
      forall k : M PythonInfo,
        (if negb (truthy (python b))
         then match _python (project b) with
              | Some project_python => ret project_python
              | None => k
              end
         else k) = k).
    { intros k. destruct Hs as [Hs|Hs]; rewrite Hs; [reflexivity|].
      now destruct (truthy (python b)). }
    unfold _resolved_interpreter_func. rewrite Hsearch.
    unfold iter_interpreters, bind, emit_event, ret. simpl.
    rewrite Hf. reflexivity.
Qed.

Lemma interpreter_resolution_witness :
  _resolved_interpreter (backend_of VenvBackend None) (world_of sample_tree)
  = (inr sample_python, with_cache (world_of sample_tree) (Some sample_python))
  /\ fst (_resolved_interpreter
            {| kind := VenvBackend;
               project := sample_project_with None [broken_python; sample_python]
                            (exits_with 0);
               python := Some "3.9" |}
            (world_of sample_tree)) = inr broken_python
  /\ fst (_resolved_interpreter
            {| kind := VenvBackend;
               project := sample_project_with None [broken_python] (exits_with 0);
               python := None |}
            (world_of sample_tree))
     = inl (VirtualenvCreateError (Message "Can't resolve python interpreter"))
  /\ fst (_resolved_interpreter
            {| kind := VenvBackend;
               project := sample_project_with None [] (exits_with 0);
               python := Some "3.9" |}
            (world_of sample_tree))
     = inl (VirtualenvCreateError (Message "Can't resolve python interpreter 3.9")).
Proof.
  split; [|split; [|split]].
  - apply (proj1 (interpreter_resolution (backend_of VenvBackend None)
                    (world_of sample_tree) eq_refl));
      reflexivity.
  - apply (proj1 (proj2 (interpreter_resolution
                    {| kind := VenvBackend;
                       project := sample_project_with None
                                    [broken_python; sample_python] (exits_with 0);
                       python := Some "3.9" |}
                    (world_of sample_tree) eq_refl)) eq_refl
                    broken_python [sample_python]).
    reflexivity.
  - apply (proj2 (proj2 (interpreter_resolution
                    {| kind := VenvBackend;
                       project := sample_project_with None [broken_python]
                                    (exits_with 0);
                       python := None |}
                    (world_of sample_tree) eq_refl))).
    + right. reflexivity.
    + reflexivity.
  - apply (proj2 (proj2 (interpreter_resolution
                    {| kind := VenvBackend;
                       project := sample_project_with None [] (exits_with 0);
                       python := Some "3.9" |}
                    (world_of sample_tree) eq_refl))).
    + left. reflexivity.
    + reflexivity.
Defined.

(** C7. The conda backend with a spec returns the spec itself and leaves
    the world as it was: nothing is resolved, looked up or cached, whatever
    the project can or cannot discover.  Every other backend returns the
    identifier of the resolved interpreter, and fails when resolution
    fails. *)
Theorem ident_by_backend (b : Backend) (w : World) :
  (kind b = CondaBackend ->
   forall spec, python b = Some spec -> spec <> EmptyString ->
     ident b w = (inr spec, w))
  /\ (kind b <> CondaBackend ->
      ident b w
      = match _resolved_interpreter b w with
        | (inr py, w') => (inr (identifier py), w')
        | (inl e, w') => (inl e, w')
        end).
Proof.
  split.
  - intros Hk spec Hs Hne. unfold ident. rewrite Hk, Hs.
    assert (Ht : truthy (Some spec) = true) by now apply truthy_some.
    rewrite Ht. reflexivity.
  - intros Hk. unfold ident.
    destruct (kind b); try contradiction; reflexivity.
Qed.

Lemma ident_by_backend_witness :
  (let b := {| kind := CondaBackend;
               project := sample_project_with None [] (exits_with 0);
               python := Some "3.11" |} in
   ident b (world_of sample_tree) = (inr "3.11", world_of sample_tree))
  /\ (let b := {| kind := VirtualenvBackend;
                  project := sample_project_with None [] (exits_with 0);
                  python := Some "3.11" |} in
      ident b (world_of sample_tree)
      = match _resolved_interpreter b (world_of sample_tree) with
        | (inr py, w') => (inr (identifier py), w')
        | (inl e, w') => (inl e, w')
        end).
Proof.
  split; cbv zeta.
  - apply (proj1 (ident_by_backend _ _)) with (spec := "3.11");
      [reflexivity | reflexivity | discriminate].
  - apply (proj2 (ident_by_backend _ _)). discriminate.
Defined.

(** ** The prompt *)

Lemma log_subprocess_call b cmd w :
  log (snd (subprocess_call b cmd w)) = log w ++ [Spawn cmd].
Proof.
  unfold subprocess_call.
  destruct (run_process (project b) cmd (fs (with_event w (Spawn cmd))))
    as [[code|e] r]; [destruct (code =? 0)%Z|]; reflexivity.
Qed.

(** C10. For the virtualenv, venv and uv backends the command is a fixed
    list with one slot for the prompt: the slot holds [--prompt=<p>] when
    the prompt handed over is a non-empty string, and nothing when it is
    the empty string or absent.  The rest of the command does not depend
    on the prompt. *)
Theorem prompt_flag_iff_nonempty (b : Backend) (location : Path)
    (args : list string) (w : World) (py : PythonInfo) (w1 : World) :
  kind b <> CondaBackend ->
  _resolved_interpreter b w = (inr py, w1) ->
  exists pre post,
    forall prompt,
      let flag := match prompt with
                  | Some p => if (p =? "")%string then []
                              else [("--prompt=" ++ p)%string]
                  | None => []
                  end in
      perform_create b location args prompt w
      = subprocess_call b (pre ++ flag ++ post) w1
      /\ log (snd (perform_create b location args prompt w))
         = log w1 ++ [Spawn (pre ++ flag ++ post)].
Proof.
  intros Hk Hr.
  assert (Hflag : forall prompt,
             prompt_option prompt
             = match prompt with
               | Some p => if (p =? "")%string then []
                           else [("--prompt=" ++ p)%string]
               | None => []
               end).
  { intros [p|]; [|reflexivity]. unfold prompt_option, truthy. simpl.
    now destruct (p =? "")%string. }
  destruct (kind b) eqn:Ek; try contradiction.
  - exists [sys_executable (project b); "-m"; "virtualenv"; str_path location;
            "-p"; str_path (executable py)], args.
    intros prompt flag. subst flag. rewrite <- Hflag.
    assert (E : perform_create b location args prompt w
                = subprocess_call b
                    ([sys_executable (project b); "-m"; "virtualenv";
                      str_path location; "-p"; str_path (executable py)]
                     ++ prompt_option prompt ++ args) w1).
    { unfold perform_create. rewrite Ek. now rewrite (bind_ok _ _ _ _ _ Hr). }
    split; [exact E|]. rewrite E. apply log_subprocess_call.
  - exists [str_path (executable py); "-m"; "venv"; str_path location], args.
    intros prompt flag. subst flag. rewrite <- Hflag.
    assert (E : perform_create b location args prompt w
                = subprocess_call b
                    ([str_path (executable py); "-m"; "venv"; str_path location]
                     ++ prompt_option prompt ++ args) w1).
    { unfold perform_create. rewrite Ek. now rewrite (bind_ok _ _ _ _ _ Hr). }
    split; [exact E|]. rewrite E. apply log_subprocess_call.
  - exists (uv_cmd (project b) ++ ["venv"; "-p"; str_path (executable py)]),
           (args ++ [str_path location]).
    intros prompt flag. subst flag. rewrite <- Hflag.
    assert (E : perform_create b location args prompt w
                = subprocess_call b
                    ((uv_cmd (project b) ++ ["venv"; "-p"; str_path (executable py)])
                     ++ prompt_option prompt ++ args ++ [str_path location]) w1).
    { unfold perform_create. rewrite Ek. rewrite (bind_ok _ _ _ _ _ Hr).
      now rewrite <- app_assoc. }
    split; [exact E|]. rewrite E. apply log_subprocess_call.
Qed.

Lemma prompt_flag_iff_nonempty_witness :
  exists pre post,
    forall prompt,
      let flag := match prompt with
                  | Some p => if (p =? "")%string then []
                              else [("--prompt=" ++ p)%string]
                  | None => []
                  end in
      perform_create (backend_of UvBackend None)
        ["home"; "me"; "venvs"; "x"] ["--seed"] prompt (world_of sample_tree)
      = subprocess_call (backend_of UvBackend None) (pre ++ flag ++ post)
          (with_cache (world_of sample_tree) (Some sample_python))
      /\ log (snd (perform_create (backend_of UvBackend None)
                     ["home"; "me"; "venvs"; "x"] ["--seed"] prompt
                     (world_of sample_tree)))
         = log (with_cache (world_of sample_tree) (Some sample_python))
           ++ [Spawn (pre ++ flag ++ post)].
Proof.
  apply (prompt_flag_iff_nonempty (backend_of UvBackend None)
           ["home"; "me"; "venvs"; "x"] ["--seed"] (world_of sample_tree)
           sample_python (with_cache (world_of sample_tree) (Some sample_python))).
  - discriminate.
  - reflexivity.
Defined.

Lemma append_snoc (a : string) (c : ascii) (s : string) :
  ((a ++ String c EmptyString) ++ s = a ++ String c s)%string.
Proof. induction a as [|x a IH]; simpl; [reflexivity|]. now rewrite IH. Qed.

(** A plain name inside braces is read up to the closing brace. *)
Lemma format_go_field kwargs name :
  forall acc rest,
    plain_chars name = true ->
    format_go kwargs (Field acc) (name ++ String "}" rest)
    = match get_field kwargs (acc ++ name) with
      | inr v => emit v (format_go kwargs Text rest)
      | inl e => inl e
      end.
Proof.
  induction name as [|c name IH]; intros acc rest Hp.
  - simpl. replace (acc ++ "")%string with acc; [reflexivity|].
    clear. induction acc as [|x a IH]; simpl; [reflexivity|]. now rewrite <- IH.
  - simpl in Hp. apply andb_true_iff in Hp. destruct Hp as [Hc Hn].
    unfold plain_char in Hc. rewrite negb_true_iff in Hc.
    apply orb_false_iff in Hc. destruct Hc as [Hc1 Hc3].
    apply orb_false_iff in Hc1. destruct Hc1 as [Hc1 Hc2].
    simpl. rewrite Hc2, Hc1, Hc3. rewrite IH by exact Hn.
    now rewrite append_snoc.
Qed.

Lemma str_format_unknown_field name kwargs :
  plain_chars name = true -> all_digits name = false ->
  List.find (fun kv => (fst kv =? name)%string) kwargs = None ->
  str_format ("{" ++ name ++ "}") kwargs = inl (KeyError name).
Proof.
  intros Hp Hd Hf. unfold str_format.
  destruct name as [|c name]; [discriminate|].
  simpl in Hp. apply andb_true_iff in Hp. destruct Hp as [Hc Hn].
  unfold plain_char in Hc. rewrite negb_true_iff in Hc.
  apply orb_false_iff in Hc. destruct Hc as [Hc1 Hc3].
  apply orb_false_iff in Hc1. destruct Hc1 as [Hc1 Hc2].
  change (format_go kwargs Text ("{" ++ String c name ++ "}")%string)
    with (format_go kwargs AfterOpen (String c (name ++ "}")%string)).
  cbn [format_go]. rewrite Hc1, Hc2, Hc3.
  rewrite format_go_field by exact Hn.
  cbn [append]. unfold get_field. rewrite Hd, Hf. reflexivity.
Qed.

(** C8. A supplied template is formatted with two keyword arguments and
    nothing else: [project_name], the lower-cased name of the project's
    root folder or ["virtualenv"] when that name is empty, and
    [python_version], the identity of the backend.  So
    ["{project_name}-{python_version}"] gives ["myapp-3.11.2"] for the
    folder [MyApp] and identity [3.11.2], and ["virtualenv-3.11.2"] for an
    empty folder name; a field of any other name is a [KeyError]. *)
Theorem prompt_interpolation (b : Backend) (w : World) (i : string) (w1 : World) :
  ident b w = (inr i, w1) ->
  (forall template,
     format_prompt b (Some template) w
     = (match str_format template
                [("project_name",
                  str_or (lower (path_name (root (project b)))) "virtualenv");
                 ("python_version", i)] with
        | inr s => inr (Some s)
        | inl e => inl e
        end, w1))
  /\ (path_name (root (project b)) = "MyApp" -> i = "3.11.2" ->
      format_prompt b (Some "{project_name}-{python_version}") w
      = (inr (Some "myapp-3.11.2"), w1))
  /\ (path_name (root (project b)) = "" -> i = "3.11.2" ->
      format_prompt b (Some "{project_name}-{python_version}") w
      = (inr (Some "virtualenv-3.11.2"), w1))
  /\ (forall name,
        plain_chars name = true -> all_digits name = false ->
        name <> "project_name" -> name <> "python_version" ->
        format_prompt b (Some ("{" ++ name ++ "}")%string) w
        = (inl (KeyError name), w1)).
Proof.
  intros Hi.
  assert (G : forall template,
     format_prompt b (Some template) w
     = (match str_format template
                [("project_name",
                  str_or (lower (path_name (root (project b)))) "virtualenv");
                 ("python_version", i)] with
        | inr s => inr (Some s)
        | inl e => inl e
        end, w1)).
  { intros template. unfold format_prompt.
    rewrite (bind_ok _ _ _ _ _ Hi). unfold bind, lift, ret.
    now destruct (str_format template _). }
  split; [exact G|]. split; [|split].
  - intros Hn ->. rewrite G, Hn. reflexivity.
  - intros Hn ->. rewrite G, Hn. reflexivity.
  - intros name Hp Hd H1 H2. rewrite G.
    rewrite str_format_unknown_field; try assumption; [reflexivity|].
    apply String.eqb_neq in H1, H2.
    rewrite String.eqb_sym in H1. rewrite String.eqb_sym in H2.
    cbn [List.find fst]. now rewrite H1, H2.
Qed.

Lemma prompt_interpolation_witness :
  format_prompt (backend_of VenvBackend None)
    (Some "{project_name}-{python_version}") (world_of sample_tree)
  = (inr (Some "myapp-3.11.2"),
     with_cache (world_of sample_tree) (Some sample_python))
  /\ format_prompt
       {| kind := VenvBackend; project := root_project; python := None |}
       (Some "{project_name}-{python_version}") (world_of sample_tree)
     = (inr (Some "virtualenv-3.11.2"),
        with_cache (world_of sample_tree) (Some sample_python))
  /\ format_prompt (backend_of VenvBackend None)
       (Some "{venv_name}") (world_of sample_tree)
     = (inl (KeyError "venv_name"),
        with_cache (world_of sample_tree) (Some sample_python)).
Proof.
  split; [|split].
  - apply (proj1 (proj2 (prompt_interpolation (backend_of VenvBackend None)
             (world_of sample_tree) "3.11.2"
             (with_cache (world_of sample_tree) (Some sample_python))
             eq_refl))); reflexivity.
  - apply (proj1 (proj2 (proj2 (prompt_interpolation
             {| kind := VenvBackend; project := root_project; python := None |}
             (world_of sample_tree) "3.11.2"
             (with_cache (world_of sample_tree) (Some sample_python))
             eq_refl)))); reflexivity.
  - apply (proj2 (proj2 (proj2 (prompt_interpolation (backend_of VenvBackend None)
             (world_of sample_tree) "3.11.2"
             (with_cache (world_of sample_tree) (Some sample_python))
             eq_refl))) "venv_name"); try reflexivity; discriminate.
Defined.

(** ** Name and explicit venv name *)

(** C1, as the code has it.  Outside in-project mode, a non-empty name
    together with a non-empty explicit venv name makes [create] raise the
    usage error with the world untouched: no directory made or removed,
    nothing resolved, nothing spawned.  In in-project mode the two names
    are not looked at: [create] does what it does without them. *)
Theorem name_and_venv_name_exclusive (b : Backend) (name venv_name : option string)
    (args : list string) (force : bool) (prompt : option string)
    (with_pip : bool) (w : World) :
  (truthy name = true -> truthy venv_name = true ->
   create b name args force false prompt with_pip venv_name w
   = (inl (PdmUsageError "Cannot specify both name and venv_name"), w))
  /\ create b name args force true prompt with_pip venv_name w
     = create b None args force true prompt with_pip None w.
Proof.
  split.
  - intros Hn Hv. unfold create.
    apply bind_err. unfold get_location. now rewrite Hn, Hv.
  - reflexivity.
Qed.

Lemma name_and_venv_name_exclusive_witness :
  create (backend_of CondaBackend (Some "3.11")) (Some "dev") ["--quiet"]
    true false (Some "{project_name}") true (Some "explicit")
    (world_of sample_tree)
  = (inl (PdmUsageError "Cannot specify both name and venv_name"),
     world_of sample_tree).
Proof.
  apply (proj1 (name_and_venv_name_exclusive (backend_of CondaBackend (Some "3.11"))
                  (Some "dev") (Some "explicit") ["--quiet"] true
                  (Some "{project_name}") true (world_of sample_tree)));
    reflexivity.
Defined.

(** C1 as stated fails in in-project mode: with both names given the venv
    backend creates [.venv] under the project root and returns it. *)
Lemma both_names_in_project_no_usage_error :
  create (backend_of VenvBackend None) (Some "dev") [] false true None true
    (Some "explicit") (world_of bare_tree)
  = (inr ["home"; "me"; "MyApp"; ".venv"],
     {| fs := bare_tree;
        resolved_cache := Some sample_python;
        log := [Spawn ["/usr/bin/python3.11"; "-m"; "venv";
                       "/home/me/MyApp/.venv"]] |}).
Proof. reflexivity. Qed.

(** ** The file-system model: lookups, updates and resolution *)

Lemma find_entry_map_entry_same c g es :
  find_entry c (map_entry c g es) = option_map g (find_entry c es).
Proof.
  induction es as [|[k n] es IH]; simpl; [reflexivity|].
  destruct (k =? c)%string eqn:E; simpl; rewrite E; [reflexivity|exact IH].
Qed.

Lemma find_entry_map_entry_other c c' g es :
  c' <> c -> find_entry c' (map_entry c g es) = find_entry c' es.
Proof.
  intros Hne. induction es as [|[k n] es IH]; simpl; [reflexivity|].
  destruct (k =? c)%string eqn:E; simpl.
  - apply String.eqb_eq in E. subst k.
    destruct (c =? c')%string eqn:E'; [|reflexivity].
    apply String.eqb_eq in E'. congruence.
  - destruct (k =? c')%string; [reflexivity|exact IH].
Qed.

Lemma map_entry_twice c g h k es :
  (forall m, g (h m) = k m) ->
  map_entry c g (map_entry c h es) = map_entry c k es.
Proof.
  intros Hgh. induction es as [|[x n] es IH]; simpl; [reflexivity|].
  destruct (x =? c)%string eqn:E; simpl; rewrite E.
  - now rewrite Hgh.
  - now rewrite IH.
Qed.

Lemma map_entry_id c g es :
  (forall m, find_entry c es = Some m -> g m = m) -> map_entry c g es = es.
Proof.
  induction es as [|[x n] es IH]; simpl; intros H; [reflexivity|].
  destruct (x =? c)%string eqn:E.
  - now rewrite H.
  - now rewrite IH.
Qed.

Lemma lookup_app n p q :
  lookup n (p ++ q)
  = match lookup n p with
    | Some m => lookup m q
    | None => None
    end.
Proof.
  revert n. induction p as [|c p IH]; intros n; simpl; [reflexivity|].
  destruct n; try reflexivity.
  destruct (find_entry c entries); [apply IH|reflexivity].
Qed.

Lemma lookup_update_same n p f m :
  lookup n p = Some m -> lookup (update n p f) p = Some (f m).
Proof.
  revert n. induction p as [|c p IH]; intros n H; cbn in *.
  - now injection H as ->.
  - destruct n; try discriminate.
    simpl. rewrite find_entry_map_entry_same.
    destruct (find_entry c entries) as [x|]; [|discriminate].
    simpl. now apply IH.
Qed.

(** A later replacement at a path wipes an earlier change at or below it. *)
Lemma update_update_below n p q f d :
  update (update n (p ++ q) f) p (fun _ => d) = update n p (fun _ => d).
Proof.
  revert n. induction p as [|c p IH]; intros n; cbn; [reflexivity|].
  destruct n; try reflexivity.
  cbn. f_equal. apply map_entry_twice. intros m. apply IH.
Qed.

Lemma update_update_same n p f d :
  update (update n p f) p (fun _ => d) = update n p (fun _ => d).
Proof.
  rewrite <- (app_nil_r p) at 1. apply update_update_below.
Qed.

Lemma update_same_node n p m :
  lookup n p = Some m -> update n p (fun _ => m) = n.
Proof.
  revert n. induction p as [|c p IH]; intros n H; cbn in *.
  - congruence.
  - destruct n; try reflexivity.
    f_equal. apply map_entry_id. intros x Hx. rewrite Hx in H. now apply IH.
Qed.

(** Paths that neither lie under [p] nor lead to it are not affected. *)
Lemma lookup_update_outside n p f q :
  (forall r, q <> p ++ r) -> (forall r, p <> q ++ r) ->
  lookup (update n p f) q = lookup n q.
Proof.
  revert n q. induction p as [|c p IH]; intros n q H1 H2.
  - exfalso. apply (H1 q). reflexivity.
  - destruct q as [|c' q]; [exfalso; apply (H2 (c :: p)); reflexivity|].
    simpl. destruct n; try reflexivity. simpl.
    destruct (String.eqb_spec c' c) as [->|Hne].
    + rewrite find_entry_map_entry_same.
      destruct (find_entry c entries) as [m|]; [|reflexivity]. simpl.
      apply IH.
      * intros r Hr. apply (H1 r). simpl. now rewrite Hr.
      * intros r Hr. apply (H2 r). simpl. now rewrite Hr.
    + now rewrite find_entry_map_entry_other.
Qed.

Lemma split_last_snoc p c : split_last (p ++ [c]) = Some (p, c).
Proof.
  induction p as [|x p IH]; simpl; [reflexivity|]. now rewrite IH.
Qed.

Lemma resolve_from_nil fuel root follow here cur :
  resolve_from (S fuel) root follow here cur [] = inr (here, cur).
Proof. reflexivity. Qed.

Lemma resolve_from_cons fuel root follow here cur c rest :
  resolve_from (S fuel) root follow here cur (c :: rest)
  = match cur with
    | Dir _ es =>
      match find_entry c es with
      | None => inl FileNotFoundError
      | Some (Symlink t) =>
        match rest, follow with
        | [], false => inr (here ++ [c], Symlink t)
        | _, _ => resolve_from fuel root follow [] root (t ++ rest)
        end
      | Some m => resolve_from (S fuel) root follow (here ++ [c]) m rest
      end
    | _ => inl NotADirectoryError
    end.
Proof.
  destruct cur; reflexivity.
Qed.

(** Along a path of real directories resolution is the plain lookup. *)
Lemma resolve_from_lookup fuel root follow p :
  forall here cur n,
    lookup cur p = Some n ->
    (follow = false \/ is_symlink n = false) ->
    resolve_from (S fuel) root follow here cur p = inr (here ++ p, n).
Proof.
  induction p as [|c rest IH]; intros here cur n Hl Hs.
  - simpl in Hl. injection Hl as <-. rewrite resolve_from_nil.
    now rewrite app_nil_r.
  - rewrite resolve_from_cons. simpl in Hl.
    destruct cur; try discriminate.
    destruct (find_entry c entries) as [m|]; [|discriminate].
    replace (here ++ c :: rest) with ((here ++ [c]) ++ rest)
      by now rewrite <- app_assoc.
    destruct m as [| |t|w es].
    + now apply IH.
    + now apply IH.
    + destruct rest; [|discriminate]. simpl in Hl. injection Hl as <-.
      destruct Hs as [->|Hs]; [|discriminate].
      now rewrite app_nil_r.
    + now apply IH.
Qed.

Lemma resolve_lookup root follow p n :
  lookup root p = Some n ->
  (follow = false \/ is_symlink n = false) ->
  resolve root follow p = inr (p, n).
Proof. intros Hl Hs. unfold resolve. now rewrite (resolve_from_lookup _ _ _ _ [] root n). Qed.



Lemma find_entry_head c n tl : find_entry c ((c, n) :: tl) = Some n.
Proof. simpl. now rewrite String.eqb_refl. Qed.

Lemma remove_entry_head c n tl : remove_entry c ((c, n) :: tl) = tl.
Proof. simpl. now rewrite String.eqb_refl. Qed.

Lemma lookup_child root p w es c n :
  lookup root p = Some (Dir w es) -> find_entry c es = Some n ->
  lookup root (p // c) = Some n.
Proof.
  intros Hl Hf. unfold joinpath. rewrite lookup_app, Hl. simpl. now rewrite Hf.
Qed.

(** ** The primitives on entries of a writable directory *)

Lemma os_unlink_entry root parent es c n :
  lookup root parent = Some (Dir true es) ->
  find_entry c es = Some n ->
  (forall w' es', n <> Dir w' es') ->
  os_unlink root (parent // c)
  = (update root parent (fun _ => Dir true (remove_entry c es)), None).
Proof.
  intros Hl Hf Hn. unfold os_unlink, joinpath.
  rewrite split_last_snoc.
  rewrite (resolve_lookup root true parent (Dir true es) Hl) by now right.
  rewrite Hf. simpl. destruct n; try reflexivity.
  exfalso. now apply (Hn writable entries).
Qed.


Lemma with_fs_twice w r r' : with_fs (with_fs w r) r' = with_fs w r'.
Proof. reflexivity. Qed.

Lemma with_fs_same w : with_fs w (fs w) = w.
Proof. now destruct w. Qed.




(** ** Cleaning the location *)


(** Nothing is in the way: [_ensure_clean] returns at once. *)
Lemma ensure_clean_free b location force w :
  occupied (fs w) location = false ->
  _ensure_clean b location force w = (inr tt, w).
Proof.
  unfold occupied, _ensure_clean, bind, fs_get, fs_try, ret.
  destruct (path_exists (fs w) location); [|reflexivity]. cbn [andb negb].
  destruct (is_dir (fs w) location); [|discriminate]. cbn [andb].
  destruct (iterdir (fs w) location) as [e|[|x l]]; try discriminate.
  reflexivity.
Qed.

(** Something is in the way and [force] is off: the refusal, with the
    world as it was. *)
Lemma ensure_clean_refuses b location w :
  occupied (fs w) location = true ->
  _ensure_clean b location false w
  = (inl (VirtualenvCreateError (Message (not_empty_message location))), w).
Proof.
  unfold occupied, _ensure_clean, bind, fs_get, fs_try, ret, raise.
  destruct (path_exists (fs w) location); [|discriminate]. cbn [andb negb].
  destruct (is_dir (fs w) location) eqn:Ed; [|reflexivity]. cbn [andb].
  destruct (iterdir (fs w) location) as [e|[|x l]] eqn:Ei; try discriminate.
  - unfold is_dir in Ed. unfold iterdir in Ei.
    destruct (resolve (fs w) true location) as [e'|[rp [| | |wr es]]];
      discriminate.
  - reflexivity.
Qed.

(** ** What the steps of [create] can raise and spawn *)

Lemma quiet_ret {A} (a : A) : quiet (ret a).
Proof. intros w. reflexivity. Qed.

Lemma quiet_raise {A} e : quiet (@raise A e).
Proof. intros w. reflexivity. Qed.

Lemma quiet_lift {A} (r : exn + A) : quiet (lift r).
Proof. intros w. reflexivity. Qed.

Lemma quiet_bind {A B} (c : M A) (k : A -> M B) :
  quiet c -> (forall a, quiet (k a)) -> quiet (bind c k).
Proof.
  intros Hc Hk w. unfold bind. specialize (Hc w).
  destruct (c w) as [[e|a] w1]; [exact Hc|].
  rewrite (Hk a w1). exact Hc.
Qed.

Lemma quiet_fs_op f : quiet (fs_op f).
Proof. intros w. unfold fs_op. now destruct (f (fs w)) as [r [e|]]. Qed.

Lemma quiet_fs_get {A} (f : node -> A) : quiet (fs_get f).
Proof. intros w. reflexivity. Qed.

Lemma quiet_fs_try {A} (f : node -> os_error + A) : quiet (fs_try f).
Proof. intros w. unfold fs_try. now destruct (f (fs w)). Qed.

Lemma quiet_for_each {A} (xs : list A) body :
  (forall x, quiet (body x)) -> quiet (for_each xs body).
Proof.
  intros Hb. induction xs as [|x xs IH]; [apply quiet_ret|].
  apply quiet_bind; [apply Hb|intros _; exact IH].
Qed.

Lemma spawned_app l l' : spawned (l ++ l') = spawned l ++ spawned l'.
Proof.
  induction l as [|[s r|cmd] l IH]; simpl; [reflexivity|exact IH|now rewrite IH].
Qed.

Lemma quiet_resolved_interpreter b : quiet (_resolved_interpreter b).
Proof.
  intros w. unfold _resolved_interpreter, cached_property.
  destruct (resolved_cache w); [reflexivity|].
  assert (Hf : quiet (_resolved_interpreter_func b)).
  { unfold _resolved_interpreter_func.
    assert (Hs : forall k : list PythonInfo -> M PythonInfo,
               (forall l, quiet (k l)) ->
               quiet (bind (iter_interpreters (project b) (python b) (match_func b)
                              (use_python_version (project b))) k)).
    { intros k Hk. apply quiet_bind; [|exact Hk].
      intros w0. unfold iter_interpreters, bind, emit_event, ret. cbn.
      rewrite spawned_app. cbn. now rewrite app_nil_r. }
    assert (Hsearch : forall l : list PythonInfo,
               quiet (match l with
                      | py_version :: _ => ret py_version
                      | [] =>
                        raise (VirtualenvCreateError
                                 (Message ("Can't resolve python interpreter"
                                           ++ (if truthy (python b)
                                               then " " ++ the_str (python b)
                                               else ""))%string))
                      end)).
    { intros [|x l]; [apply quiet_raise|apply quiet_ret]. }
    destruct (negb (truthy (python b))); [|now apply Hs].
    destruct (_python (project b)); [apply quiet_ret|now apply Hs]. }
  specialize (Hf w).
  destruct (_resolved_interpreter_func b w) as [[e|v] w1]; exact Hf.
Qed.

Lemma quiet_ident b : quiet (ident b).
Proof.
  assert (H : quiet (Backend_ident b)).
  { apply quiet_bind; [apply quiet_resolved_interpreter|intros; apply quiet_ret]. }
  unfold ident. destruct (kind b); try exact H.
  destruct (truthy (python b)); [apply quiet_ret|exact H].
Qed.

Lemma quiet_clean_entry e : quiet (clean_entry e).
Proof.
  apply quiet_bind; [apply quiet_fs_get|].
  intros d. destruct (d && negb (entry_is_symlink e)); apply quiet_fs_op.
Qed.

Lemma quiet_ensure_clean b location force : quiet (_ensure_clean b location force).
Proof.
  unfold _ensure_clean.
  apply quiet_bind; [apply quiet_fs_get|]. intros ex.
  destruct (negb ex); [apply quiet_ret|].
  apply quiet_bind; [apply quiet_fs_get|]. intros d.
  apply quiet_bind.
  { destruct d; [|apply quiet_ret].
    apply quiet_bind; [apply quiet_fs_try|intros; apply quiet_ret]. }
  intros empty. destruct empty; [apply quiet_ret|].
  destruct (negb force); [apply quiet_raise|].
  apply quiet_bind; [apply quiet_fs_get|]. intros f.
  destruct f; [apply quiet_fs_op|].
  apply quiet_bind; [apply quiet_fs_try|]. intros entries.
  apply quiet_for_each. apply quiet_clean_entry.
Qed.

Lemma quiet_get_location b name venv_name : quiet (get_location b name venv_name).
Proof.
  unfold get_location.
  destruct (truthy name && truthy venv_name); [apply quiet_raise|].
  apply quiet_bind; [apply quiet_fs_get|]. intros d.
  apply quiet_bind.
  { destruct (negb d); [apply quiet_fs_op|apply quiet_ret]. }
  intros _. apply quiet_bind; [|intros; apply quiet_ret].
  destruct (negb (truthy venv_name)); [|apply quiet_ret].
  apply quiet_bind; [|intros; apply quiet_ret].
  destruct (truthy name); [apply quiet_ret|apply quiet_ident].
Qed.

Lemma quiet_format_prompt b prompt : quiet (format_prompt b prompt).
Proof.
  destruct prompt as [t|]; [|apply quiet_ret].
  apply quiet_bind; [apply quiet_ident|]. intros i.
  apply quiet_bind; [apply quiet_lift|intros; apply quiet_ret].
Qed.

Lemma quiet_create_preparation b name force in_project prompt venv_name :
  quiet (create_preparation b name force in_project prompt venv_name).
Proof.
  unfold create_preparation.
  apply quiet_bind.
  { destruct in_project; [apply quiet_ret|apply quiet_get_location]. }
  intros location. apply quiet_bind; [apply quiet_format_prompt|].
  intros p. apply quiet_bind; [apply quiet_ensure_clean|intros; apply quiet_ret].
Qed.

(** [create] is its preparation followed by the invocation. *)
Lemma create_split b name args force in_project prompt with_pip venv_name w :
  create b name args force in_project prompt with_pip venv_name w
  = match create_preparation b name force in_project prompt venv_name w with
    | (inl e, w1) => (inl e, w1)
    | (inr (location, prompt'), w1) =>
      match perform_create b location (pip_args (kind b) with_pip ++ args)
              prompt' w1 with
      | (inl e, w2) => (inl e, w2)
      | (inr _, w2) => (inr location, w2)
      end
    end.
Proof.
  unfold create, create_preparation, bind, ret.
  destruct (if in_project then _ else _) as [[e|location] w1]; [reflexivity|].
  destruct (format_prompt b prompt w1) as [[e|p] w2]; [reflexivity|].
  destruct (_ensure_clean b location force w2) as [[e|[]] w3]; reflexivity.
Qed.

(** ** Conda and a [python=] argument *)

Lemma conda_perform_create_rejects b location args prompt w :
  kind b = CondaBackend ->
  existsb (String.prefix "python=") args = true ->
  perform_create b location args prompt w
  = if truthy (python b) then (inl (PdmUsageError conda_usage_message), w)
    else match _resolved_interpreter b w with
         | (inl e, w') => (inl e, w')
         | (inr _, w') => (inl (PdmUsageError conda_usage_message), w')
         end.
Proof.
  intros Hk Ha. unfold perform_create. rewrite Hk, Ha.
  destruct (truthy (python b)); [reflexivity|].
  unfold bind, ret, raise.
  now destruct (_resolved_interpreter b w) as [[e|py] w'].
Qed.

(** C2, as the code has it.  For the conda backend with an extra argument
    that starts with [python=], [create] hands no command to the process
    layer and returns no location.  The usage error comes from the
    invocation step, so it is raised after the preparation: the location
    is computed (the venv root made when missing), the prompt formatted
    and the cleanup run, and, when the backend has no spec, the
    interpreter resolved.  An exception of one of these steps is the one
    reported; otherwise the usage error is, in the world the preparation
    left. *)
Theorem conda_python_arg_rejected (b : Backend) (name : option string)
    (args : list string) (force in_project : bool) (prompt : option string)
    (with_pip : bool) (venv_name : option string) (w : World) :
  kind b = CondaBackend ->
  existsb (String.prefix "python=") args = true ->
  let r := create b name args force in_project prompt with_pip venv_name w in
  spawned (log (snd r)) = spawned (log w)
  /\ (forall location, fst r <> inr location)
  /\ match create_preparation b name force in_project prompt venv_name w with
     | (inl e, w1) => r = (inl e, w1)
     | (inr _, w1) =>
       if truthy (python b)
       then r = (inl (PdmUsageError conda_usage_message), w1)
       else match _resolved_interpreter b w1 with
            | (inl e, w2) => r = (inl e, w2)
            | (inr _, w2) => r = (inl (PdmUsageError conda_usage_message), w2)
            end
     end.
Proof.
  intros Hk Ha r. subst r. rewrite create_split.
  pose proof (quiet_create_preparation b name force in_project prompt venv_name w)
    as Hq.
  destruct (create_preparation b name force in_project prompt venv_name w)
    as [[e|[location p]] w1]; cbn [snd fst] in *.
  - repeat split; [exact Hq|discriminate].
  - assert (Ha' : existsb (String.prefix "python=")
                    (pip_args (kind b) with_pip ++ args) = true).
    { rewrite existsb_app, Ha. apply orb_true_r. }
    rewrite (conda_perform_create_rejects b location _ p w1 Hk Ha').
    destruct (truthy (python b)).
    + repeat split; [exact Hq|discriminate].
    + pose proof (quiet_resolved_interpreter b w1) as Hr.
      destruct (_resolved_interpreter b w1) as [[e|py] w2]; cbn [snd fst] in *;
        (repeat split; [now rewrite Hr|discriminate]).
Qed.

Lemma conda_python_arg_rejected_witness :
  let r := create (backend_of CondaBackend (Some "3.11")) (Some "dev")
             ["--quiet"; "python=3.10"] false false None true None
             (world_of sample_tree) in
  spawned (log (snd r)) = []
  /\ (forall location, fst r <> inr location)
  /\ r = (inl (PdmUsageError conda_usage_message), world_of sample_tree).
Proof.
  exact (conda_python_arg_rejected (backend_of CondaBackend (Some "3.11"))
           (Some "dev") ["--quiet"; "python=3.10"] false false None true None
           (world_of sample_tree) eq_refl eq_refl).
Defined.

(** C2 as stated fails: the cleanup runs before the usage error.  With
    [force] on, the content of the target is gone by the time the error is
    raised; with [force] off and the target occupied, the error reported
    is the refusal of the cleanup, not the usage error. *)
Lemma conda_python_arg_after_cleanup :
  create (backend_of CondaBackend (Some "3.11")) None ["python=3.10"]
    true true None false None (world_of sample_tree)
  = (inl (PdmUsageError conda_usage_message), world_of cleaned_tree)
  /\ lookup cleaned_tree ["home"; "me"; "MyApp"; ".venv"; "pyvenv.cfg"] = None
  /\ lookup sample_tree ["home"; "me"; "MyApp"; ".venv"; "pyvenv.cfg"] = Some File
  /\ create (backend_of CondaBackend (Some "3.11")) None ["python=3.10"]
       false true None false None (world_of sample_tree)
     = (inl (VirtualenvCreateError
               (Message (not_empty_message ["home"; "me"; "MyApp"; ".venv"]))),
        world_of sample_tree).
Proof. repeat split. Qed.

(** ** Where creation errors come from *)

Lemma raises_only_ret {A} P (a : A) : raises_only P (ret a).
Proof. intros w e w' H. discriminate. Qed.

Lemma raises_only_raise {A} (P : exn -> Prop) e : P e -> raises_only P (@raise A e).
Proof. intros HP w e' w' H. injection H as <- _. exact HP. Qed.

Lemma raises_only_bind {A B} P (c : M A) (k : A -> M B) :
  raises_only P c -> (forall a, raises_only P (k a)) -> raises_only P (bind c k).
Proof.
  intros Hc Hk w e w' H. unfold bind in H.
  destruct (c w) as [[e1|a] w1] eqn:E.
  - injection H as <- _. exact (Hc _ _ _ E).
  - exact (Hk a _ _ _ H).
Qed.

Lemma raises_only_fs_get {A} P (f : node -> A) : raises_only P (fs_get f).
Proof. intros w e w' H. discriminate. Qed.

Lemma raises_only_fs_op P f :
  (forall oe, P (OSError oe)) -> raises_only P (fs_op f).
Proof.
  intros HP w e w' H. unfold fs_op in H.
  destruct (f (fs w)) as [r [oe|]]; [|discriminate].
  injection H as <- _. apply HP.
Qed.

Lemma raises_only_fs_try {A} P (f : node -> os_error + A) :
  (forall oe, P (OSError oe)) -> raises_only P (fs_try f).
Proof.
  intros HP w e w' H. unfold fs_try in H.
  destruct (f (fs w)) as [oe|a]; [|discriminate].
  injection H as <- _. apply HP.
Qed.

Lemma raises_only_for_each {A} P (xs : list A) body :
  (forall x, raises_only P (body x)) -> raises_only P (for_each xs body).
Proof.
  intros Hb. induction xs as [|x xs IH]; [apply raises_only_ret|].
  apply raises_only_bind; [apply Hb|intros _; exact IH].
Qed.

Lemma raises_only_cached_property P func :
  raises_only P func -> raises_only P (cached_property func).
Proof.
  intros Hf w e w' H. unfold cached_property in H.
  destruct (resolved_cache w); [discriminate|].
  destruct (func w) as [[e1|v] w1] eqn:E; [|discriminate].
  injection H as <- _. exact (Hf _ _ _ E).
Qed.

(** [str.format] raises none of the module's own exceptions. *)
Lemma format_go_raises kwargs s :
  forall mode e, format_go kwargs mode s = inl e ->
    forall a, e <> VirtualenvCreateError a.
Proof.
  assert (Hemit : forall v r e, emit v r = inl e -> r = inl e).
  { intros v [e'|t] e H; [exact H|discriminate]. }
  assert (Hget : forall name e, get_field kwargs name = inl e ->
                   forall a, e <> VirtualenvCreateError a).
  { intros name e H a. unfold get_field in H.
    destruct (all_digits name); [injection H as <-; discriminate|].
    destruct (List.find _ kwargs); [discriminate|].
    injection H as <-. discriminate. }
  induction s as [|c s IH]; intros mode e H a.
  - destruct mode; simpl in H; try discriminate; injection H as <-; discriminate.
  - destruct mode; cbn [format_go] in H.
    + destruct (c =? "{")%char; [exact (IH _ _ H a)|].
      destruct (c =? "}")%char; [exact (IH _ _ H a)|].
      exact (IH _ _ (Hemit _ _ _ H) a).
    + destruct (c =? "{")%char; [exact (IH _ _ (Hemit _ _ _ H) a)|].
      destruct (c =? "}")%char.
      { destruct (get_field kwargs EmptyString) eqn:G.
        - injection H as <-. exact (Hget _ _ G a).
        - exact (IH _ _ (Hemit _ _ _ H) a). }
      destruct (outside_fragment c); [injection H as <-; discriminate|].
      exact (IH _ _ H a).
    + destruct (c =? "}")%char; [exact (IH _ _ (Hemit _ _ _ H) a)|].
      injection H as <-. discriminate.
    + destruct (c =? "}")%char.
      { destruct (get_field kwargs acc) eqn:G.
        - injection H as <-. exact (Hget _ _ G a).
        - exact (IH _ _ (Hemit _ _ _ H) a). }
      destruct (c =? "{")%char; [injection H as <-; discriminate|].
      destruct (outside_fragment c); [injection H as <-; discriminate|].
      exact (IH _ _ H a).
Qed.

Section Accounted.
Variable b : Backend.
Variable force : bool.

Local Abbreviation P := (creation_errors_accounted b force).

Lemma accounted_resolved_interpreter : raises_only P (_resolved_interpreter b).
Proof.
  apply raises_only_cached_property. unfold _resolved_interpreter_func.
  assert (Hs : raises_only P
            (found <- iter_interpreters (project b) (python b) (match_func b)
                        (use_python_version (project b)) ;;
             match found with
             | py_version :: _ => ret py_version
             | [] =>
               raise (VirtualenvCreateError
                        (Message ("Can't resolve python interpreter"
                                  ++ (if truthy (python b)
                                      then " " ++ the_str (python b)
                                      else ""))%string))
             end)).
  { apply raises_only_bind.
    - intros w e w' H. discriminate.
    - intros [|x l]; [|apply raises_only_ret].
      apply raises_only_raise. apply resolution_failed. }
  destruct (negb (truthy (python b))); [|exact Hs].
  destruct (_python (project b)); [apply raises_only_ret|exact Hs].
Qed.

Lemma accounted_ident : raises_only P (ident b).
Proof.
  assert (H : raises_only P (Backend_ident b)).
  { apply raises_only_bind; [apply accounted_resolved_interpreter|].
    intros; apply raises_only_ret. }
  unfold ident. destruct (kind b); try exact H.
  destruct (truthy (python b)); [apply raises_only_ret|exact H].
Qed.

Lemma accounted_get_location name venv_name :
  raises_only P (get_location b name venv_name).
Proof.
  unfold get_location.
  destruct (truthy name && truthy venv_name); [now apply raises_only_raise|].
  apply raises_only_bind; [apply raises_only_fs_get|]. intros d.
  apply raises_only_bind.
  { destruct (negb d); [now apply raises_only_fs_op|apply raises_only_ret]. }
  intros _. apply raises_only_bind; [|intros; apply raises_only_ret].
  destruct (negb (truthy venv_name)); [|apply raises_only_ret].
  apply raises_only_bind; [|intros; apply raises_only_ret].
  destruct (truthy name); [apply raises_only_ret|apply accounted_ident].
Qed.

Lemma accounted_format_prompt prompt : raises_only P (format_prompt b prompt).
Proof.
  destruct prompt as [t|]; [|apply raises_only_ret].
  apply raises_only_bind; [apply accounted_ident|]. intros i.
  apply raises_only_bind; [|intros; apply raises_only_ret].
  intros w e w' H. unfold lift in H. injection H as H _.
  destruct e; try exact I.
  exfalso. exact (format_go_raises _ _ _ _ H arg eq_refl).
Qed.

Lemma accounted_clean_entry e : raises_only P (clean_entry e).
Proof.
  apply raises_only_bind; [apply raises_only_fs_get|].
  intros d. destruct (d && negb (entry_is_symlink e));
    now apply raises_only_fs_op.
Qed.

Lemma accounted_ensure_clean location :
  raises_only P (_ensure_clean b location force).
Proof.
  unfold _ensure_clean.
  apply raises_only_bind; [apply raises_only_fs_get|]. intros ex.
  destruct (negb ex); [apply raises_only_ret|].
  apply raises_only_bind; [apply raises_only_fs_get|]. intros d.
  apply raises_only_bind.
  { destruct d; [|apply raises_only_ret].
    apply raises_only_bind; [now apply raises_only_fs_try|].
    intros; apply raises_only_ret. }
  intros empty. destruct empty; [apply raises_only_ret|].
  destruct (negb force) eqn:Ef.
  - apply raises_only_raise. apply location_occupied.
    now apply negb_true_iff.
  - apply raises_only_bind; [apply raises_only_fs_get|]. intros f.
    destruct f; [now apply raises_only_fs_op|].
    apply raises_only_bind; [now apply raises_only_fs_try|]. intros entries.
    apply raises_only_for_each. apply accounted_clean_entry.
Qed.

Lemma accounted_subprocess_call cmd : raises_only P (subprocess_call b cmd).
Proof.
  intros w e w' H. unfold subprocess_call in H.
  destruct (run_process (project b) cmd (fs (with_event w (Spawn cmd))))
    as [[code|oe] r].
  - destruct (code =? 0)%Z eqn:Ec; [discriminate|].
    injection H as <- _. apply tool_exit_status. cbn.
    now apply Z.eqb_neq.
  - injection H as <- _. exact I.
Qed.

Lemma accounted_perform_create location args prompt :
  raises_only P (perform_create b location args prompt).
Proof.
  unfold perform_create. destruct (kind b).
  - apply raises_only_bind; [apply accounted_resolved_interpreter|].
    intros; apply accounted_subprocess_call.
  - apply raises_only_bind; [apply accounted_resolved_interpreter|].
    intros; apply accounted_subprocess_call.
  - apply raises_only_bind; [apply accounted_resolved_interpreter|].
    intros; apply accounted_subprocess_call.
  - apply raises_only_bind.
    { destruct (truthy (python b)); [apply raises_only_ret|].
      apply raises_only_bind; [apply accounted_resolved_interpreter|].
      intros; apply raises_only_ret. }
    intros v. destruct (existsb _ args); [now apply raises_only_raise|].
    apply accounted_subprocess_call.
Qed.

Lemma accounted_create name args in_project prompt with_pip venv_name :
  raises_only P (create b name args force in_project prompt with_pip venv_name).
Proof.
  unfold create.
  apply raises_only_bind.
  { destruct in_project; [apply raises_only_ret|apply accounted_get_location]. }
  intros location. apply raises_only_bind; [apply accounted_format_prompt|].
  intros p. apply raises_only_bind; [apply accounted_ensure_clean|].
  intros _. apply raises_only_bind; [apply accounted_perform_create|].
  intros; apply raises_only_ret.
Qed.
End Accounted.

(** A forced cleanup raises nothing but the errors of the operating system. *)
Lemma forced_cleanup_raises b location :
  raises_only (fun e => exists oe, e = OSError oe) (_ensure_clean b location true).
Proof.
  assert (HP : forall oe, exists oe', OSError oe = OSError oe') by (intros; eauto).
  unfold _ensure_clean.
  apply raises_only_bind; [apply raises_only_fs_get|]. intros ex.
  destruct (negb ex); [apply raises_only_ret|].
  apply raises_only_bind; [apply raises_only_fs_get|]. intros d.
  apply raises_only_bind.
  { destruct d; [|apply raises_only_ret].
    apply raises_only_bind; [now apply raises_only_fs_try|].
    intros; apply raises_only_ret. }
  intros empty. destruct empty; [apply raises_only_ret|]. cbn [negb].
  apply raises_only_bind; [apply raises_only_fs_get|]. intros f.
  destruct f; [now apply raises_only_fs_op|].
  apply raises_only_bind; [now apply raises_only_fs_try|]. intros entries.
  apply raises_only_for_each. intros e.
  apply raises_only_bind; [apply raises_only_fs_get|].
  intros d'. destruct (d' && negb (entry_is_symlink e));
    now apply raises_only_fs_op.
Qed.

(** C9, as the code has it.  A [VirtualenvCreateError] that [create]
    raises has one of three origins: the tool exited with a non-zero
    status (the error wraps the [CalledProcessError]), the location is
    occupied and [force] is off, or no interpreter could be resolved.
    Only [CalledProcessError] is caught: a non-zero exit is wrapped, a
    tool that cannot be started surfaces as the operating system's own
    error, and so does every failure of a forced cleanup, which raises
    nothing but [OSError]. *)
Theorem creation_error_origins (b : Backend) (name : option string)
    (args : list string) (force in_project : bool) (prompt : option string)
    (with_pip : bool) (venv_name : option string) :
  (forall w e w',
     create b name args force in_project prompt with_pip venv_name w = (inl e, w') ->
     creation_errors_accounted b force e)
  /\ (forall cmd w code r,
        run_process (project b) cmd (fs w) = (Exited code, r) -> code <> 0%Z ->
        fst (subprocess_call b cmd w)
        = inl (VirtualenvCreateError
                 (Wrapped {| returncode := code; cmd_of := cmd |})))
  /\ (forall cmd w oe r,
        run_process (project b) cmd (fs w) = (LaunchFailed oe, r) ->
        fst (subprocess_call b cmd w) = inl (OSError oe))
  /\ (forall location w e w',
        _ensure_clean b location true w = (inl e, w') ->
        exists oe, e = OSError oe).
Proof.
  split; [|split; [|split]].
  - exact (accounted_create b force name args in_project prompt with_pip venv_name).
  - intros cmd w code r Hr Hc. unfold subprocess_call.
    change (fs (with_event w (Spawn cmd))) with (fs w). rewrite Hr.
    apply Z.eqb_neq in Hc. now rewrite Hc.
  - intros cmd w oe r Hr. unfold subprocess_call.
    change (fs (with_event w (Spawn cmd))) with (fs w). now rewrite Hr.
  - intros location. exact (forced_cleanup_raises b location).
Qed.

Lemma creation_error_origins_witness :
  creation_errors_accounted (backend_of VenvBackend None) false
    (VirtualenvCreateError
       (Message (not_empty_message ["home"; "me"; "MyApp"; ".venv"])))
  /\ fst (subprocess_call
            {| kind := VenvBackend;
               project := sample_project_with (Some sample_python) [] (exits_with 2);
               python := None |}
            ["python"; "-m"; "venv"] (world_of sample_tree))
     = inl (VirtualenvCreateError
              (Wrapped {| returncode := 2; cmd_of := ["python"; "-m"; "venv"] |}))
  /\ fst (subprocess_call
            {| kind := VenvBackend;
               project := sample_project_with (Some sample_python) [] cannot_start;
               python := None |}
            ["python"; "-m"; "venv"] (world_of sample_tree))
     = inl (OSError FileNotFoundError)
  /\ exists oe, OSError PermissionError = OSError oe.
Proof.
  split; [|split; [|split]].
  - apply (proj1 (creation_error_origins (backend_of VenvBackend None) None []
                    false true None true None)
             (world_of sample_tree) _ (world_of sample_tree)).
    reflexivity.
  - apply (proj1 (proj2 (creation_error_origins
                    {| kind := VenvBackend;
                       project := sample_project_with (Some sample_python) []
                                    (exits_with 2);
                       python := None |}
                    None [] false true None true None))
             ["python"; "-m"; "venv"] (world_of sample_tree) 2%Z sample_tree);
      [reflexivity|discriminate].
  - apply (proj1 (proj2 (proj2 (creation_error_origins
                    {| kind := VenvBackend;
                       project := sample_project_with (Some sample_python) []
                                    cannot_start;
                       python := None |}
                    None [] false true None true None)))
             ["python"; "-m"; "venv"] (world_of sample_tree) FileNotFoundError
             sample_tree).
    reflexivity.
  - apply (proj2 (proj2 (proj2 (creation_error_origins
                    (backend_of VenvBackend None) None [] true true None true None)))
             ["home"; "me"; "MyApp"; ".venv"] (world_of locked_tree)
             (OSError PermissionError) (world_of locked_tree)).
    reflexivity.
Defined.

(** C9 as stated fails twice.  A permission failure while a forced
    cleanup deletes entries is not caught: [create] surfaces the
    [PermissionError] itself, and no creation error.  And the creation
    error raised for an occupied location without [force] wraps neither a
    failure of the tool nor a failure of the operating system: it is
    built from a message. *)
Lemma cleanup_permission_error_not_wrapped :
  create (backend_of VenvBackend None) None [] true true None true None
    (world_of locked_tree)
  = (inl (OSError PermissionError), world_of locked_tree)
  /\ create (backend_of VenvBackend None) None [] false true None true None
       (world_of sample_tree)
     = (inl (VirtualenvCreateError
               (Message "The location /home/me/MyApp/.venv is not empty, add --force to overwrite it.")),
        world_of sample_tree).
Proof. split; reflexivity. Qed.

(** ** Making the venv root *)

Lemma same_kind_refl n : same_kind n n.
Proof. now destruct n. Qed.

Lemma find_entry_app_some c es es' n :
  find_entry c es = Some n -> find_entry c (es ++ es') = Some n.
Proof.
  induction es as [|[k m] es IH]; simpl; [discriminate|].
  destruct (k =? c)%string; [trivial|exact IH].
Qed.

Lemma find_entry_app_none c es es' :
  find_entry c es = None -> find_entry c (es ++ es') = find_entry c es'.
Proof.
  induction es as [|[k m] es IH]; simpl; [reflexivity|].
  destruct (k =? c)%string; [discriminate|exact IH].
Qed.

(** Adding an entry to a directory keeps every path that was there. *)
Lemma grows_add_entry rp w es e :
  forall r,
    lookup r rp = Some (Dir w es) ->
    grows r (update r rp (fun _ => Dir w (es ++ [e]))).
Proof.
  induction rp as [|a rp IH]; intros r Hl q n Hq.
  - cbn in Hl. injection Hl as ->. cbn [update].
    destruct q as [|d q].
    + cbn in Hq. injection Hq as <-. eexists. split; [reflexivity|exact I].
    + cbn in Hq |- *. destruct (find_entry d es) as [x|] eqn:Ef; [|discriminate].
      rewrite (find_entry_app_some _ _ _ _ Ef).
      exists n. split; [exact Hq|apply same_kind_refl].
  - cbn in Hl. destruct r as [| |t|w0 es0]; try discriminate.
    destruct (find_entry a es0) as [child|] eqn:Ea; [|discriminate].
    cbn [update]. destruct q as [|d q].
    + cbn in Hq. injection Hq as <-. eexists. split; [reflexivity|exact I].
    + cbn in Hq |- *.
      destruct (String.eqb_spec d a) as [->|Hne].
      * rewrite find_entry_map_entry_same, Ea. cbn [option_map].
        rewrite Ea in Hq. exact (IH child Hl q n Hq).
      * rewrite find_entry_map_entry_other by exact Hne.
        destruct (find_entry d es0) as [x|]; [|discriminate].
        exists n. split; [exact Hq|apply same_kind_refl].
Qed.

(** A resolution that succeeds is not disturbed by what the tree gains:
    it ends at the same canonical path. *)
Lemma resolve_from_grows r r1 follow :
  grows r r1 ->
  forall fuel p here cur cur1 q n,
    lookup r here = Some cur ->
    lookup r1 here = Some cur1 ->
    resolve_from fuel r follow here cur p = inr (q, n) ->
    lookup r q = Some n
    /\ exists n1, resolve_from fuel r1 follow here cur1 p = inr (q, n1)
                  /\ lookup r1 q = Some n1.
Proof.
  intros Hg. induction fuel as [|fuel IHf]; [discriminate|].
  induction p as [|c rest IHp]; intros here cur cur1 q n Hc Hc1 Hr.
  - rewrite resolve_from_nil in Hr. injection Hr as <- <-.
    split; [exact Hc|]. exists cur1. now rewrite resolve_from_nil.
  - rewrite resolve_from_cons in Hr. rewrite resolve_from_cons.
    destruct cur as [| |t0|w es]; try discriminate.
    destruct (find_entry c es) as [m|] eqn:Ef; [|discriminate].
    assert (Hm : lookup r (here ++ [c]) = Some m).
    { rewrite lookup_app, Hc. cbn. now rewrite Ef. }
    destruct (Hg _ _ Hm) as [m1 [Hm1 Hk]].
    assert (Hf1 : exists w1 es1, cur1 = Dir w1 es1 /\ find_entry c es1 = Some m1).
    { rewrite lookup_app, Hc1 in Hm1. cbn in Hm1.
      destruct cur1 as [| |t1|w1 es1]; try discriminate.
      destruct (find_entry c es1) as [x|] eqn:E1; [|discriminate].
      injection Hm1 as ->. now exists w1, es1. }
    destruct Hf1 as [w1 [es1 [-> Hf1]]]. rewrite Hf1.
    destruct m as [| |t|wm esm]; destruct m1 as [| |t1|wm1 esm1];
      try contradiction.
    + exact (IHp _ _ _ _ _ Hm Hm1 Hr).
    + exact (IHp _ _ _ _ _ Hm Hm1 Hr).
    + cbn in Hk. subst t1.
      destruct rest as [|c2 rest].
      * destruct follow.
        -- exact (IHf _ [] r r1 q n eq_refl eq_refl Hr).
        -- injection Hr as <- <-. split; [exact Hm|].
           exists (Symlink t). split; [reflexivity|exact Hm1].
      * destruct follow; exact (IHf _ [] r r1 q n eq_refl eq_refl Hr).
    + exact (IHp _ _ _ _ _ Hm Hm1 Hr).
Qed.

Lemma resolve_lands r follow p q n :
  resolve r follow p = inr (q, n) -> lookup r q = Some n.
Proof.
  intros Hr.
  assert (Hg : grows r r).
  { intros x m Hx. exists m. split; [exact Hx|apply same_kind_refl]. }
  exact (proj1 (resolve_from_grows r r follow Hg _ _ [] r r q n
                  eq_refl eq_refl Hr)).
Qed.

(** Resolving a longer path goes through the resolution of its prefix. *)
Lemma resolve_from_app root s :
  forall fuel p here cur q n,
    resolve_from fuel root true here cur p = inr (q, n) ->
    exists fuel',
      resolve_from fuel root true here cur (p ++ s)
      = resolve_from (S fuel') root true q n s.
Proof.
  induction fuel as [|fuel IHf]; [discriminate|].
  induction p as [|c rest IHp]; intros here cur q n Hr.
  - rewrite resolve_from_nil in Hr. injection Hr as <- <-.
    exists fuel. reflexivity.
  - rewrite resolve_from_cons in Hr.
    change ((c :: rest) ++ s) with (c :: (rest ++ s)).
    rewrite resolve_from_cons.
    destruct cur as [| |t0|w es]; try discriminate.
    destruct (find_entry c es) as [[| |t|wm esm]|]; try discriminate.
    + exact (IHp _ _ _ _ Hr).
    + exact (IHp _ _ _ _ Hr).
    + assert (Hr' : resolve_from fuel root true [] root (t ++ rest) = inr (q, n))
        by (destruct rest; exact Hr).
      destruct (IHf _ _ _ _ _ Hr') as [f' Hf'].
      rewrite <- app_assoc in Hf'.
      exists f'. rewrite <- Hf'. now destruct (rest ++ s).
    + exact (IHp _ _ _ _ Hr).
Qed.

Lemma os_mkdir_inv r p r1 :
  os_mkdir r p = (r1, None) ->
  exists pp c rp w es,
    p = pp ++ [c]
    /\ resolve r true pp = inr (rp, Dir w es)
    /\ find_entry c es = None
    /\ r1 = update r rp (fun _ => Dir w (es ++ [(c, Dir true [])])).
Proof.
  unfold os_mkdir. intros H.
  destruct (split_last p) as [[pp c]|] eqn:Es; [|discriminate].
  assert (Hp : p = pp ++ [c]).
  { clear H. revert pp c Es. induction p as [|x p IH]; intros pp c Es;
      [discriminate|].
    cbn in Es. destruct (split_last p) as [[pp' c']|] eqn:E.
    - injection Es as <- <-. cbn. now rewrite <- (IH pp' c').
    - injection Es as <- <-. destruct p; [reflexivity|].
      cbn in E. now destruct (split_last p) as [[? ?]|]. }
  destruct (resolve r true pp) as [e|[rp [| |t|w es]]] eqn:Er; try discriminate.
  destruct (find_entry c es) eqn:Ef; [discriminate|].
  destruct w; [|discriminate]. injection H as <-.
  exists pp, c, rp, true, es. repeat split; assumption.
Qed.

(** What [os.mkdir] makes resolves to a directory that holds nothing. *)
Lemma os_mkdir_fresh r p r1 : os_mkdir r p = (r1, None) -> fresh_dir r1 p.
Proof.
  intros H. destruct (os_mkdir_inv _ _ _ H)
    as [pp [c [rp [w [es [-> [Hr [Hf ->]]]]]]]].
  pose proof (resolve_lands _ _ _ _ _ Hr) as Hl.
  pose proof (grows_add_entry rp w es (c, Dir true []) r Hl) as Hg.
  set (r1 := update r rp (fun _ => Dir w (es ++ [(c, Dir true [])]))) in *.
  destruct (resolve_from_grows r r1 true Hg _ _ [] r r1 rp _ eq_refl eq_refl Hr)
    as [_ [n1 [Hr1 Hl1]]].
  assert (Hn1 : n1 = Dir w (es ++ [(c, Dir true [])])).
  { unfold r1 in Hl1. rewrite (lookup_update_same _ _ _ _ Hl) in Hl1.
    now injection Hl1 as <-. }
  subst n1. exists (rp ++ [c]). unfold resolve.
  destruct (resolve_from_app r1 [c] _ _ _ _ _ _ Hr1) as [f' ->].
  rewrite resolve_from_cons. rewrite (find_entry_app_none _ _ _ Hf).
  cbn [find_entry]. rewrite String.eqb_refl. now rewrite resolve_from_nil.
Qed.

Lemma fresh_dir_mkdir r pp c :
  fresh_dir r pp -> exists r1, os_mkdir r (pp ++ [c]) = (r1, None).
Proof.
  intros [rp Hr]. unfold os_mkdir. rewrite split_last_snoc, Hr. cbn.
  eexists. reflexivity.
Qed.

Lemma fresh_dir_child_absent r p x : fresh_dir r p -> path_exists r (p // x) = false.
Proof.
  intros [rp Hr]. unfold path_exists, resolve, joinpath.
  destruct (resolve_from_app r [x] _ _ _ _ _ _ Hr) as [f' ->].
  now rewrite resolve_from_cons.
Qed.

Lemma os_mkdir_not_found r p x :
  os_mkdir r p = (x, Some FileNotFoundError) ->
  exists pp c, p = pp ++ [c] /\ is_dir r pp = false.
Proof.
  unfold os_mkdir. intros H.
  destruct (split_last p) as [[pp c]|] eqn:Es; [|discriminate].
  assert (Hp : p = pp ++ [c]).
  { clear H. revert pp c Es. induction p as [|y p IH]; intros pp c Es;
      [discriminate|].
    cbn in Es. destruct (split_last p) as [[pp' c']|] eqn:E.
    - injection Es as <- <-. cbn. now rewrite <- (IH pp' c').
    - injection Es as <- <-. destruct p; [reflexivity|].
      cbn in E. now destruct (split_last p) as [[? ?]|]. }
  exists pp, c. split; [exact Hp|]. unfold is_dir.
  destruct (resolve r true pp) as [e|[rp [| |t|w es]]]; try reflexivity.
  destruct (find_entry c es); [discriminate|]. now destruct w.
Qed.

(** A venv root that was no directory and has been made holds nothing. *)
Lemma mkdir_parents_fresh rp :
  forall r r1,
    is_dir r (rev rp) = false ->
    mkdir_parents r rp = (r1, None) ->
    fresh_dir r1 (rev rp).
Proof.
  induction rp as [|c rparent IH]; intros r r1 Hd H.
  - cbn [mkdir_parents rev] in H. unfold os_mkdir in H. cbn [split_last] in H.
    cbn [rev] in Hd. rewrite Hd in H. discriminate.
  - cbn [mkdir_parents] in H.
    destruct (os_mkdir r (rev (c :: rparent))) as [r' [e|]] eqn:Em.
    + destruct e; try (rewrite Hd in H; discriminate).
      destruct (os_mkdir_not_found _ _ _ Em) as [pp [c' [Hp Hpp]]].
      cbn [rev] in Hp. apply app_inj_tail in Hp. destruct Hp as [<- <-].
      destruct (mkdir_parents r rparent) as [root1 [e|]] eqn:Er; [discriminate|].
      pose proof (IH _ _ Hpp Er) as Hfresh.
      destruct (fresh_dir_mkdir _ _ c Hfresh) as [r2 Hr2].
      cbn [rev] in H. rewrite Hr2 in H. injection H as <-.
      exact (os_mkdir_fresh _ _ _ Hr2).
    + injection H as <-. exact (os_mkdir_fresh _ _ _ Em).
Qed.

Lemma path_mkdir_target_absent r p r1 x :
  is_dir r p = false -> path_mkdir r p = (r1, None) ->
  path_exists r1 (p // x) = false.
Proof.
  intros Hd H. unfold path_mkdir in H.
  apply fresh_dir_child_absent.
  rewrite <- (rev_involutive p). apply (mkdir_parents_fresh _ r).
  - now rewrite rev_involutive.
  - exact H.
Qed.

(** ** End to end with the venv backend *)

Lemma resolved_interpreter_cached b w py w1 :
  _resolved_interpreter b w = (inr py, w1) -> resolved_cache w1 = Some py.
Proof.
  unfold _resolved_interpreter, cached_property.
  destruct (resolved_cache w) eqn:Ec.
  - intros H. injection H as <- <-. exact Ec.
  - destruct (_resolved_interpreter_func b w) as [[e|v] w']; [discriminate|].
    intros H. injection H as <- <-. reflexivity.
Qed.

Lemma resolved_interpreter_hit b w py :
  resolved_cache w = Some py -> _resolved_interpreter b w = (inr py, w).
Proof. apply cached_property_hit. Qed.

(** Resolution does not look at the file system. *)
Lemma resolved_interpreter_with_fs b w r :
  fst (_resolved_interpreter b (with_fs w r)) = fst (_resolved_interpreter b w).
Proof.
  unfold _resolved_interpreter, cached_property. cbn [resolved_cache with_fs].
  destruct (resolved_cache w); [reflexivity|].
  unfold _resolved_interpreter_func.
  destruct (negb (truthy (python b))).
  - destruct (_python (project b)); [reflexivity|].
    unfold iter_interpreters, bind, emit_event, ret, raise. cbn.
    now destruct (filter _ _).
  - unfold iter_interpreters, bind, emit_event, ret, raise. cbn.
    now destruct (filter _ _).
Qed.

Lemma resolved_interpreter_fs b w :
  fs (snd (_resolved_interpreter b w)) = fs w.
Proof.
  unfold _resolved_interpreter, cached_property.
  destruct (resolved_cache w); [reflexivity|].
  assert (H : fs (snd (_resolved_interpreter_func b w)) = fs w).
  { unfold _resolved_interpreter_func.
    destruct (negb (truthy (python b))).
    - destruct (_python (project b)); [reflexivity|].
      unfold iter_interpreters, bind, emit_event, ret, raise. cbn.
      now destruct (filter _ _).
    - unfold iter_interpreters, bind, emit_event, ret, raise. cbn.
      now destruct (filter _ _). }
  destruct (_resolved_interpreter_func b w) as [[e|v] w']; exact H.
Qed.

Lemma get_location_unnamed b name venv_name w location w1 :
  kind b <> CondaBackend ->
  truthy name = false -> truthy venv_name = false ->
  get_location b name venv_name w = (inr location, w1) ->
  exists py,
    fst (_resolved_interpreter b w) = inr py
    /\ resolved_cache w1 = Some py
    /\ location
       = venv_location (project b)
         // (venv_prefix (project b) ++ identifier py)%string
    /\ (is_dir (fs w) (venv_location (project b)) = true -> fs w1 = fs w)
    /\ (is_dir (fs w) (venv_location (project b)) = false ->
        path_mkdir (fs w) (venv_location (project b)) = (fs w1, None)).
Proof.
  intros Hk Hn Hv. unfold get_location. rewrite Hn, Hv. cbn [andb negb].
  assert (Hi : ident b = Backend_ident b).
  { unfold ident. destruct (kind b); try reflexivity. contradiction. }
  rewrite Hi. unfold bind at 1. unfold fs_get at 1.
  set (step := if negb (is_dir (fs w) (venv_location (project b)))
               then fs_op (fun r => path_mkdir r (venv_location (project b)))
               else ret tt).
  assert (Hstep : forall w', step w = (inr tt, w') ->
             w' = with_fs w (fs w')
             /\ (is_dir (fs w) (venv_location (project b)) = true -> w' = w)
             /\ (is_dir (fs w) (venv_location (project b)) = false ->
                 path_mkdir (fs w) (venv_location (project b)) = (fs w', None))).
  { intros w'. unfold step.
    destruct (is_dir (fs w) (venv_location (project b))); cbn [negb].
    - intros H. injection H as <-. cbn. rewrite with_fs_same.
      repeat split; [discriminate].
    - unfold fs_op. destruct (path_mkdir (fs w) _) as [r [oe|]];
        intros H; [discriminate|]. injection H as <-.
      repeat split; [discriminate]. }
  unfold bind at 1.
  destruct (step w) as [[e|[]] w']; [discriminate|].
  destruct (Hstep _ eq_refl) as [Es [Hsame Hmade]].
  unfold Backend_ident, bind, ret.
  destruct (_resolved_interpreter b w') as [[e|py] w2] eqn:Er; [discriminate|].
  intros H. injection H as <- <-.
  pose proof (resolved_interpreter_fs b w') as Hfs.
  rewrite Er in Hfs. cbn in Hfs.
  exists py. split; [|split; [|split; [|split]]].
  - rewrite Es in Er. rewrite <- resolved_interpreter_with_fs with (r := fs w').
    now rewrite Er.
  - exact (resolved_interpreter_cached _ _ _ _ Er).
  - reflexivity.
  - intros Hd. rewrite Hfs. now rewrite (Hsame Hd).
  - intros Hd. rewrite Hfs. exact (Hmade Hd).
Qed.

(** A target that is free before the venv root is looked after is free
    afterwards. *)
Lemma get_location_keeps_free b name venv_name w location w1 :
  kind b <> CondaBackend ->
  truthy name = false -> truthy venv_name = false ->
  get_location b name venv_name w = (inr location, w1) ->
  occupied (fs w) location = false ->
  occupied (fs w1) location = false.
Proof.
  intros Hk Hn Hv Hloc Hfree.
  destruct (get_location_unnamed b name venv_name w location w1 Hk Hn Hv Hloc)
    as [py [_ [_ [Hl [Hsame Hmade]]]]].
  destruct (is_dir (fs w) (venv_location (project b))) eqn:Ed.
  - now rewrite (Hsame eq_refl).
  - unfold occupied. rewrite Hl.
    now rewrite (path_mkdir_target_absent _ _ _ _ Ed (Hmade eq_refl)).
Qed.

Lemma format_prompt_cached b prompt w py :
  kind b <> CondaBackend ->
  resolved_cache w = Some py ->
  snd (format_prompt b prompt w) = w.
Proof.
  intros Hk Hc. destruct prompt as [t|]; [|reflexivity].
  unfold format_prompt.
  assert (Hi : ident b w = (inr (identifier py), w)).
  { unfold ident. destruct (kind b); try contradiction;
      unfold Backend_ident;
      now rewrite (bind_ok _ _ _ _ _ (resolved_interpreter_hit b w py Hc)). }
  rewrite (bind_ok _ _ _ _ _ Hi). unfold bind, lift, ret.
  now destruct (str_format t _).
Qed.

(** C6.  The venv backend, no name and no explicit venv name, [force]
    off, not in-project.  When the location can be computed (the
    interpreter resolves, the venv root is there or can be made), nothing
    is in the way at the target (it is absent or an empty directory) and
    the tool exits with status [0], [create] returns
    [<venv root>/<prefix><identifier>] for the resolved interpreter, and
    the one command it ran is that interpreter's own executable with
    [-m venv <location>], the prompt option, [--without-pip] exactly when
    with-pip is off, and the caller's arguments.  The tool runs on the
    tree [get_location] left, which is the initial one when the venv root
    was already a directory. *)
Theorem venv_create_end_to_end (b : Backend) (name venv_name : option string)
    (args : list string) (prompt p : option string) (with_pip : bool)
    (w w1 : World) (location : Path) :
  kind b = VenvBackend ->
  truthy name = false -> truthy venv_name = false ->
  get_location b name venv_name w = (inr location, w1) ->
  fst (format_prompt b prompt w1) = inr p ->
  occupied (fs w) location = false ->
  exists py,
    fst (_resolved_interpreter b w) = inr py
    /\ location
       = venv_location (project b)
         // (venv_prefix (project b) ++ identifier py)%string
    /\ (is_dir (fs w) (venv_location (project b)) = true -> fs w1 = fs w)
    /\ forall r',
         run_process (project b)
           ([str_path (executable py); "-m"; "venv"; str_path location]
            ++ prompt_option p
            ++ (if with_pip then [] else ["--without-pip"]) ++ args)
           (fs w1) = (Exited 0, r') ->
         create b name args false false prompt with_pip venv_name w
         = (inr location,
            with_fs
              (with_event w1
                 (Spawn ([str_path (executable py); "-m"; "venv"; str_path location]
                         ++ prompt_option p
                         ++ (if with_pip then [] else ["--without-pip"]) ++ args)))
              r').
Proof.
  intros Hk Hn Hv Hloc Hp Hfree0.
  assert (Hnc : kind b <> CondaBackend) by (rewrite Hk; discriminate).
  pose proof (get_location_keeps_free b name venv_name w location w1
                Hnc Hn Hv Hloc Hfree0) as Hfree.
  destruct (get_location_unnamed b name venv_name w location w1 Hnc Hn Hv Hloc)
    as [py [Hr [Hc [Hl [Hsame _]]]]].
  exists py. split; [exact Hr|]. split; [exact Hl|]. split; [exact Hsame|].
  intros r' Hrun. unfold create.
  rewrite (bind_ok _ _ _ _ _ Hloc).
  assert (Hfp : format_prompt b prompt w1 = (inr p, w1)).
  { pose proof (format_prompt_cached b prompt w1 py Hnc Hc) as Hs.
    destruct (format_prompt b prompt w1) as [x w']. cbn in Hp, Hs. now subst. }
  rewrite (bind_ok _ _ _ _ _ Hfp).
  rewrite (bind_ok _ _ _ _ _ (ensure_clean_free b location false w1 Hfree)).
  assert (Hpc : perform_create b location (pip_args (kind b) with_pip ++ args) p w1
                = (inr tt,
                   with_fs
                     (with_event w1
                        (Spawn ([str_path (executable py); "-m"; "venv";
                                 str_path location]
                                ++ prompt_option p
                                ++ (if with_pip then [] else ["--without-pip"])
                                ++ args)))
                     r')).
  { unfold perform_create. rewrite Hk.
    rewrite (bind_ok _ _ _ _ _ (resolved_interpreter_hit b w1 py Hc)).
    unfold subprocess_call. cbn [pip_args].
    change (fs (with_event w1 ?e)) with (fs w1).
    now rewrite Hrun. }
  now rewrite (bind_ok _ _ _ _ _ Hpc).
Qed.

Lemma venv_create_end_to_end_witness :
  let b := backend_of VenvBackend None in
  let w1 :=
    {| fs := Dir true
               [("home", Dir true
                  [("me", Dir true [("MyApp", Dir true []);
                                    ("venvs", Dir true [])])])];
       resolved_cache := Some sample_python;
       log := [] |} in
  let location := ["home"; "me"; "venvs"; "MyApp-ab12-3.11.2"] in
  exists py,
    fst (_resolved_interpreter b (world_of fresh_tree)) = inr py
    /\ location
       = venv_location (project b)
         // (venv_prefix (project b) ++ identifier py)%string
    /\ (is_dir (fs (world_of fresh_tree)) (venv_location (project b)) = true ->
        fs w1 = fs (world_of fresh_tree))
    /\ forall r',
         run_process (project b)
           ([str_path (executable py); "-m"; "venv"; str_path location]
            ++ prompt_option (Some "myapp")
            ++ (if false then [] else ["--without-pip"]) ++ ["--copies"])
           (fs w1) = (Exited 0, r') ->
         create b None ["--copies"] false false (Some "{project_name}") false None
           (world_of fresh_tree)
         = (inr location,
            with_fs
              (with_event w1
                 (Spawn ([str_path (executable py); "-m"; "venv"; str_path location]
                         ++ prompt_option (Some "myapp")
                         ++ (if false then [] else ["--without-pip"])
                         ++ ["--copies"])))
              r').
Proof.
  cbv zeta.
  apply (venv_create_end_to_end (backend_of VenvBackend None) None None
           ["--copies"] (Some "{project_name}") (Some "myapp") false
           (world_of fresh_tree)); reflexivity.
Defined.

(** * Further properties of the module *)

(** ** Resolution is cached, failure is not *)

Lemma resolved_interpreter_func_cache b w :
  resolved_cache (snd (_resolved_interpreter_func b w)) = resolved_cache w.
Proof.
  unfold _resolved_interpreter_func.
  destruct (negb (truthy (python b))).
  - destruct (_python (project b)); [reflexivity|].
    unfold iter_interpreters, bind, emit_event, ret, raise. cbn.
    now destruct (filter _ _).
  - unfold iter_interpreters, bind, emit_event, ret, raise. cbn.
    now destruct (filter _ _).
Qed.

(** X1. Once [_resolved_interpreter] has succeeded, asking again gives the
    same interpreter and changes nothing: discovery is not run a second
    time.  A failed resolution is not remembered, the slot stays empty. *)
Theorem resolution_cached_once (b : Backend) (w : World) :
  (forall py w1,
     _resolved_interpreter b w = (inr py, w1) ->
     _resolved_interpreter b w1 = (inr py, w1))
  /\ (forall e w1,
        resolved_cache w = None ->
        _resolved_interpreter b w = (inl e, w1) ->
        resolved_cache w1 = None).
Proof.
  split.
  - intros py w1 H. apply resolved_interpreter_hit.
    exact (resolved_interpreter_cached _ _ _ _ H).
  - intros e w1 Hc H. unfold _resolved_interpreter, cached_property in H.
    rewrite Hc in H.
    pose proof (resolved_interpreter_func_cache b w) as Hf.
    destruct (_resolved_interpreter_func b w) as [[e'|v] w']; [|discriminate].
    injection H as _ <-. cbn in Hf. now rewrite Hf.
Qed.

Lemma resolution_cached_once_witness :
  _resolved_interpreter
    {| kind := VenvBackend;
       project := sample_project_with None [sample_python] (exits_with 0);
       python := None |}
    {| fs := sample_tree; resolved_cache := Some sample_python;
       log := [Discover None true] |}
  = (inr sample_python,
     {| fs := sample_tree; resolved_cache := Some sample_python;
        log := [Discover None true] |})
  /\ resolved_cache
       {| fs := sample_tree; resolved_cache := None;
          log := [Discover (Some "3.9") true] |} = None.
Proof.
  split.
  - apply (proj1 (resolution_cached_once
             {| kind := VenvBackend;
                project := sample_project_with None [sample_python] (exits_with 0);
                python := None |}
             (world_of sample_tree)) sample_python).
    reflexivity.
  - apply (proj2 (resolution_cached_once
             {| kind := VenvBackend;
                project := sample_project_with None [] (exits_with 0);
                python := Some "3.9" |}
             (world_of sample_tree))
             (VirtualenvCreateError
                (Message "Can't resolve python interpreter 3.9")));
      reflexivity.
Defined.

Lemma filter_first {A} (f : A -> bool) l x r :
  filter f l = x :: r ->
  f x = true
  /\ exists skipped rest,
       l = skipped ++ x :: rest /\ forall c, In c skipped -> f c = false.
Proof.
  induction l as [|a l IH]; [discriminate|]. cbn.
  destruct (f a) eqn:Ea.
  - intros H. injection H as -> _. split; [exact Ea|].
    exists [], l. split; [reflexivity|]. intros c [].
  - intros H. destruct (IH H) as [Hx [sk [rest [-> Hs]]]].
    split; [exact Hx|]. exists (a :: sk), rest. split; [reflexivity|].
    intros c [<-|Hc]; [exact Ea|now apply Hs].
Qed.

(** X2. Without a spec and without a pinned interpreter, the interpreter
    resolved is valid and within the project's [python_requires], and it
    is the first such candidate of discovery: every candidate before it is
    invalid or out of range. *)
Theorem resolution_without_spec_filters (b : Backend) (w : World) (py : PythonInfo) :
  resolved_cache w = None ->
  truthy (python b) = false ->
  _python (project b) = None ->
  fst (_resolved_interpreter b w) = inr py ->
  valid py = true
  /\ python_requires (project b) (version py) = true
  /\ exists skipped rest,
       discovered (project b) (python b) (use_python_version (project b))
       = skipped ++ py :: rest
       /\ forall c, In c skipped ->
            valid c && python_requires (project b) (version c) = false.
Proof.
  intros Hc Hs Hp. unfold _resolved_interpreter, cached_property. rewrite Hc.
  unfold _resolved_interpreter_func. rewrite Hs, Hp. cbn [negb].
  unfold iter_interpreters, bind, emit_event, ret, raise. cbn.
  destruct (filter (match_func b) _) as [|x r] eqn:Ef; [discriminate|].
  cbn. intros H. injection H as ->.
  destruct (filter_first _ _ _ _ Ef) as [Hx [sk [rest [Hd Hsk]]]].
  unfold match_func in Hx. rewrite Hs in Hx. cbn in Hx.
  apply andb_true_iff in Hx. destruct Hx as [Hv Hr].
  split; [exact Hv|]. split; [exact Hr|].
  exists sk, rest. split; [exact Hd|].
  intros c Hin. specialize (Hsk c Hin). unfold match_func in Hsk.
  now rewrite Hs in Hsk.
Qed.

Lemma resolution_without_spec_filters_witness :
  valid sample_python = true
  /\ python_requires
       (sample_project_with None [broken_python; sample_python] (exits_with 0))
       (version sample_python) = true
  /\ exists skipped rest,
       [broken_python; sample_python] = skipped ++ sample_python :: rest
       /\ forall c, In c skipped ->
            valid c
            && python_requires
                 (sample_project_with None [broken_python; sample_python]
                    (exits_with 0)) (version c) = false.
Proof.
  apply (resolution_without_spec_filters
           {| kind := UvBackend;
              project := sample_project_with None [broken_python; sample_python]
                           (exits_with 0);
              python := None |}
           (world_of sample_tree) sample_python); reflexivity.
Defined.

(** ** The location *)

Lemma same_kind_trans a b c : same_kind a b -> same_kind b c -> same_kind a c.
Proof.
  destruct a, b, c; cbn; try tauto; try congruence.
Qed.

Lemma grows_refl r : grows r r.
Proof. intros q n H. exists n. split; [exact H|apply same_kind_refl]. Qed.

Lemma grows_trans r1 r2 r3 : grows r1 r2 -> grows r2 r3 -> grows r1 r3.
Proof.
  intros H12 H23 q n H. destruct (H12 _ _ H) as [n2 [H2 K2]].
  destruct (H23 _ _ H2) as [n3 [H3 K3]].
  exists n3. split; [exact H3|exact (same_kind_trans _ _ _ K2 K3)].
Qed.

Lemma os_mkdir_failed r p r1 e : os_mkdir r p = (r1, Some e) -> r1 = r.
Proof.
  unfold os_mkdir. destruct (split_last p) as [[pp c]|]; [|congruence].
  destruct (resolve r true pp) as [e'|[rp [| |t|w es]]]; try congruence.
  destruct (find_entry c es); [congruence|]. destruct w; congruence.
Qed.

Lemma os_mkdir_grows r p r1 o : os_mkdir r p = (r1, o) -> grows r r1.
Proof.
  destruct o as [e|]; intros H.
  - rewrite (os_mkdir_failed _ _ _ _ H). apply grows_refl.
  - destruct (os_mkdir_inv _ _ _ H) as [pp [c [rp [w [es [_ [Hr [_ ->]]]]]]]].
    apply grows_add_entry. exact (resolve_lands _ _ _ _ _ Hr).
Qed.

Lemma mkdir_parents_grows rp : forall r, grows r (fst (mkdir_parents r rp)).
Proof.
  induction rp as [|c rparent IH]; intros r; cbn [mkdir_parents].
  - destruct (os_mkdir r (rev [])) as [r' [e|]] eqn:Em;
      [|exact (os_mkdir_grows _ _ _ _ Em)].
    destruct e; try destruct (is_dir r (rev [])); apply grows_refl.
  - destruct (os_mkdir r (rev (c :: rparent))) as [r' [e|]] eqn:Em;
      [|exact (os_mkdir_grows _ _ _ _ Em)].
    destruct e;
      try (destruct (is_dir r (rev (c :: rparent))); apply grows_refl).
    specialize (IH r).
    destruct (mkdir_parents r rparent) as [root1 [e|]]; [exact IH|].
    cbn [fst] in IH.
    destruct (os_mkdir root1 (rev (c :: rparent))) as [r2 [e|]] eqn:Em2;
      [|exact (grows_trans _ _ _ IH (os_mkdir_grows _ _ _ _ Em2))].
    destruct e; try destruct (is_dir root1 (rev (c :: rparent))); exact IH.
Qed.

Lemma fresh_dir_is_dir r p : fresh_dir r p -> is_dir r p = true.
Proof. intros [rp H]. unfold is_dir. now rewrite H. Qed.

Lemma ident_fs b w : fs (snd (ident b w)) = fs w.
Proof.
  assert (H : fs (snd (Backend_ident b w)) = fs w).
  { unfold Backend_ident, bind, ret.
    pose proof (resolved_interpreter_fs b w) as Hf.
    now destruct (_resolved_interpreter b w) as [[e|py] w']. }
  unfold ident. destruct (kind b); try exact H.
  destruct (truthy (python b)); [reflexivity|exact H].
Qed.

Lemma path_mkdir_fresh r p r1 :
  is_dir r p = false -> path_mkdir r p = (r1, None) -> fresh_dir r1 p.
Proof.
  intros Hd H. unfold path_mkdir in H.
  rewrite <- (rev_involutive p). apply (mkdir_parents_fresh _ r).
  - now rewrite rev_involutive.
  - exact H.
Qed.

(** What [get_location] does to the tree: nothing when the venv root is a
    directory or the two names clash, and otherwise what [Path.mkdir]
    does. *)
Lemma get_location_fs b name venv_name w :
  let r := get_location b name venv_name w in
  (is_dir (fs w) (venv_location (project b)) = true /\ fs (snd r) = fs w)
  \/ (fs (snd r) = fs w /\ forall loc, fst r <> inr loc)
  \/ (is_dir (fs w) (venv_location (project b)) = false
      /\ fs (snd r) = fst (path_mkdir (fs w) (venv_location (project b)))
      /\ forall loc, fst r = inr loc ->
           snd (path_mkdir (fs w) (venv_location (project b))) = None).
Proof.
  cbv zeta. remember (get_location b name venv_name w) as r eqn:Hr.
  unfold get_location in Hr.
  destruct (truthy name && truthy venv_name).
  { subst r. right. left. split; [reflexivity|]. intros loc. discriminate. }
  unfold bind at 1 in Hr. unfold fs_get at 1 in Hr.
  destruct (is_dir (fs w) (venv_location (project b))) eqn:Ed; cbn [negb] in Hr.
  - left. split; [reflexivity|]. subst r. unfold bind, ret.
    destruct (negb (truthy venv_name)); [|reflexivity].
    destruct (truthy name); [reflexivity|].
    pose proof (ident_fs b w) as Hi.
    now destruct (ident b w) as [[e|i] w'].
  - right. right. split; [reflexivity|].
    unfold bind at 1 in Hr. unfold fs_op in Hr.
    destruct (path_mkdir (fs w) (venv_location (project b))) as [r1 [oe|]].
    + subst r. cbn. split; [reflexivity|]. intros loc H. discriminate.
    + cbn [fst snd]. subst r. split; [|reflexivity].
      unfold bind, ret.
      destruct (negb (truthy venv_name)); [|reflexivity].
      destruct (truthy name); [reflexivity|].
      pose proof (ident_fs b (with_fs w r1)) as Hi.
      now destruct (ident b (with_fs w r1)) as [[e|i] w'].
Qed.

(** X3. [get_location] only adds to the tree: every path that was there
    is still there, with the same kind of node, whether the call succeeds
    or fails.  When it succeeds the venv root is a directory. *)
Theorem get_location_makes_venv_root (b : Backend) (name venv_name : option string)
    (w : World) :
  grows (fs w) (fs (snd (get_location b name venv_name w)))
  /\ (forall location,
        fst (get_location b name venv_name w) = inr location ->
        is_dir (fs (snd (get_location b name venv_name w)))
          (venv_location (project b)) = true).
Proof.
  pose proof (get_location_fs b name venv_name w) as H. cbv zeta in H.
  split.
  - destruct H as [[_ ->]|[[-> _]|[_ [-> _]]]]; try apply grows_refl.
    unfold path_mkdir. apply mkdir_parents_grows.
  - intros location Hloc. destruct H as [[Hd ->]|[[_ Hno]|[Hd [Hfs Hok]]]].
    + exact Hd.
    + exfalso. exact (Hno _ Hloc).
    + rewrite Hfs. apply fresh_dir_is_dir.
      specialize (Hok _ Hloc).
      apply (path_mkdir_fresh (fs w)); [exact Hd|].
      destruct (path_mkdir (fs w) (venv_location (project b))) as [r1 o].
      cbn in Hok. now subst o.
Qed.

Lemma get_location_makes_venv_root_witness :
  grows fresh_tree
    (fs (snd (get_location (backend_of VenvBackend None) None None
                (world_of fresh_tree))))
  /\ is_dir (fs (snd (get_location (backend_of VenvBackend None) None None
                        (world_of fresh_tree))))
       ["home"; "me"; "venvs"] = true.
Proof.
  split.
  - exact (proj1 (get_location_makes_venv_root (backend_of VenvBackend None)
                    None None (world_of fresh_tree))).
  - apply (proj2 (get_location_makes_venv_root (backend_of VenvBackend None)
                    None None (world_of fresh_tree))
             ["home"; "me"; "venvs"; "MyApp-ab12-3.11.2"]).
    reflexivity.
Defined.

(** X4. When a name or an explicit venv name is given, [get_location]
    needs no interpreter: nothing is resolved or cached and discovery is
    not run.  The last segment of the location is the explicit venv name
    as it is, or else the project prefix followed by the name; when that
    segment is one path component (no separator, not [.]), the location
    is the venv root with this component appended. *)
Theorem named_location_needs_no_interpreter (b : Backend)
    (name venv_name : option string) (w : World) :
  truthy name = true \/ truthy venv_name = true ->
  resolved_cache (snd (get_location b name venv_name w)) = resolved_cache w
  /\ log (snd (get_location b name venv_name w)) = log w
  /\ forall location,
       fst (get_location b name venv_name w) = inr location ->
       single_component
         (if truthy venv_name then the_str venv_name
          else (venv_prefix (project b) ++ the_str name)%string) = true ->
       location
       = venv_location (project b)
         ++ [if truthy venv_name then the_str venv_name
             else (venv_prefix (project b) ++ the_str name)%string].
Proof.
  intros Hgiven.
  assert (Hweak :
    resolved_cache (snd (get_location b name venv_name w)) = resolved_cache w
    /\ log (snd (get_location b name venv_name w)) = log w
    /\ forall location,
         fst (get_location b name venv_name w) = inr location ->
         location
         = venv_location (project b)
           // (if truthy venv_name then the_str venv_name
               else (venv_prefix (project b) ++ the_str name)%string));
    [|destruct Hweak as [H1 [H2 H3]]; repeat split; try assumption;
      intros location Hl _; exact (H3 location Hl)].
  remember (get_location b name venv_name w) as r eqn:Hr.
  unfold get_location in Hr.
  destruct (truthy name && truthy venv_name).
  { subst r. repeat split. intros location H. discriminate. }
  unfold bind at 1 in Hr. unfold fs_get at 1 in Hr.
  unfold bind at 1 in Hr.
  assert (Hstep :
    forall w0, resolved_cache w0 = resolved_cache w -> log w0 = log w ->
      let r0 :=
        (venv_name0 <- (if negb (truthy venv_name)
                        then n <- (if truthy name then ret (the_str name)
                                   else ident b) ;;
                             ret (venv_prefix (project b) ++ n)%string
                        else ret (the_str venv_name)) ;;
         ret (venv_location (project b) // venv_name0)) w0 in
      resolved_cache (snd r0) = resolved_cache w
      /\ log (snd r0) = log w
      /\ forall location, fst r0 = inr location ->
           location
           = venv_location (project b)
             // (if truthy venv_name then the_str venv_name
                 else (venv_prefix (project b) ++ the_str name)%string)).
  { intros w0 Hc Hl. cbv zeta. unfold bind, ret.
    destruct (truthy venv_name) eqn:Ev; cbn [negb].
    - repeat split; try assumption. intros location H. now injection H as <-.
    - destruct Hgiven as [Hn|Hv]; [|discriminate]. rewrite Hn.
      repeat split; try assumption. intros location H. now injection H as <-. }
  destruct (negb (is_dir (fs w) (venv_location (project b)))).
  - unfold fs_op in Hr.
    destruct (path_mkdir (fs w) (venv_location (project b))) as [r1 [oe|]].
    + subst r. repeat split. intros location H. discriminate.
    + subst r. now apply Hstep.
  - subst r. now apply Hstep.
Qed.

Lemma named_location_needs_no_interpreter_witness :
  let b := {| kind := VenvBackend;
              project := sample_project_with None [] (exits_with 0);
              python := None |} in
  let w := world_of sample_tree in
  resolved_cache (snd (get_location b (Some "dev") None w)) = None
  /\ log (snd (get_location b (Some "dev") None w)) = []
  /\ ["home"; "me"; "venvs"; "MyApp-ab12-dev"]
     = ["home"; "me"; "venvs"] ++ ["MyApp-ab12-dev"].
Proof.
  cbv zeta.
  destruct (named_location_needs_no_interpreter
              {| kind := VenvBackend;
                 project := sample_project_with None [] (exits_with 0);
                 python := None |}
              (Some "dev") None (world_of sample_tree)
              (or_introl eq_refl)) as [H1 [H2 H3]].
  split; [exact H1|]. split; [exact H2|].
  exact (H3 ["home"; "me"; "venvs"; "MyApp-ab12-dev"] eq_refl eq_refl).
Defined.

(** ** One process at most *)

Lemma spawned_subprocess_call b cmd w :
  spawned (log (snd (subprocess_call b cmd w))) = spawned (log w) ++ [cmd].
Proof. rewrite log_subprocess_call, spawned_app. reflexivity. Qed.

Lemma one_spawn_subprocess_call b cmd w w0 :
  spawned (log w) = spawned (log w0) ->
  one_spawn_at_most w0 (subprocess_call b cmd w).
Proof.
  intros Hq. unfold one_spawn_at_most.
  pose proof (spawned_subprocess_call b cmd w) as H. rewrite Hq in H.
  destruct (fst (subprocess_call b cmd w)); [right|]; now exists cmd.
Qed.

Lemma one_spawn_resolve_then_call b (f : PythonInfo -> list string) w :
  one_spawn_at_most w
    ((py <- _resolved_interpreter b ;; subprocess_call b (f py)) w).
Proof.
  unfold bind. pose proof (quiet_resolved_interpreter b w) as Hq.
  destruct (_resolved_interpreter b w) as [[e|py] w1]; cbn [snd] in Hq.
  - left. exact Hq.
  - now apply one_spawn_subprocess_call.
Qed.

Lemma one_spawn_perform_create b location args prompt w :
  one_spawn_at_most w (perform_create b location args prompt w).
Proof.
  unfold perform_create. destruct (kind b);
    try apply one_spawn_resolve_then_call.
  unfold bind at 1.
  set (version_step :=
         if truthy (python b) then ret (the_str (python b))
         else python <- _resolved_interpreter b ;;
              ret (str_of_nat (major python) ++ "."
                   ++ str_of_nat (minor python))%string).
  assert (Hq : quiet version_step).
  { unfold version_step. destruct (truthy (python b)); [apply quiet_ret|].
    apply quiet_bind; [apply quiet_resolved_interpreter|intros; apply quiet_ret]. }
  specialize (Hq w).
  destruct (version_step w) as [[e|v] w1]; cbn [snd] in Hq.
  - left. exact Hq.
  - destruct (existsb (String.prefix "python=") args).
    + left. exact Hq.
    + now apply one_spawn_subprocess_call.
Qed.

(** X6. [create] starts at most one process, and exactly one when it
    returns a location: nothing else in it reaches
    [subprocess.check_call]. *)
Theorem create_spawns_at_most_once (b : Backend) (name : option string)
    (args : list string) (force in_project : bool) (prompt : option string)
    (with_pip : bool) (venv_name : option string) (w : World) :
  let r := create b name args force in_project prompt with_pip venv_name w in
  (spawned (log (snd r)) = spawned (log w)
   \/ exists cmd, spawned (log (snd r)) = spawned (log w) ++ [cmd])
  /\ (forall location, fst r = inr location ->
        exists cmd, spawned (log (snd r)) = spawned (log w) ++ [cmd]).
Proof.
  cbv zeta. rewrite create_split.
  pose proof (quiet_create_preparation b name force in_project prompt venv_name w)
    as Hq.
  destruct (create_preparation b name force in_project prompt venv_name w)
    as [[e|[loc p]] w1]; cbn [snd fst] in *.
  - split; [now left|discriminate].
  - pose proof (one_spawn_perform_create b loc
                  (pip_args (kind b) with_pip ++ args) p w1) as H1.
    unfold one_spawn_at_most in H1. rewrite Hq in H1.
    destruct (perform_create b loc _ p w1) as [[e|[]] w2]; cbn [fst snd] in *.
    + split; [exact H1|discriminate].
    + split; [now right|]. intros _ _. exact H1.
Qed.

Lemma create_spawns_at_most_once_witness :
  exists cmd,
    spawned (log (snd (create (backend_of VirtualenvBackend None) None ["-v"]
                         false true None false None (world_of bare_tree))))
    = spawned (log (world_of bare_tree)) ++ [cmd].
Proof.
  exact (proj2 (create_spawns_at_most_once (backend_of VirtualenvBackend None)
                  None ["-v"] false true None false None (world_of bare_tree))
           ["home"; "me"; "MyApp"; ".venv"] eq_refl).
Defined.

(** ** Cleanup stays inside the location *)

Lemma map_entry_ext c g h es :
  (forall x, find_entry c es = Some x -> g x = h x) ->
  map_entry c g es = map_entry c h es.
Proof.
  induction es as [|[k n] es IH]; intros H; cbn; [reflexivity|].
  cbn in H. destruct (k =? c)%string.
  - now rewrite H.
  - now rewrite IH.
Qed.

Lemma update_ext n p g h m :
  lookup n p = Some m -> g m = h m -> update n p g = update n p h.
Proof.
  revert n. induction p as [|c p IH]; intros n Hl Hgh; cbn in *.
  - injection Hl as ->. exact Hgh.
  - destruct n; try reflexivity. f_equal.
    apply map_entry_ext. intros x Hx. rewrite Hx in Hl. now apply IH.
Qed.

Lemma update_app n p q f :
  update n (p ++ q) f = update n p (fun m => update m q f).
Proof.
  revert n. induction p as [|c p IH]; intros n; cbn; [reflexivity|].
  destruct n; try reflexivity. f_equal.
  apply map_entry_ext. intros x _. apply IH.
Qed.

(** Replacing the child [c] of a directory is replacing the directory by
    itself with that child changed. *)
Lemma update_child root location wr c n tl d :
  lookup root location = Some (Dir wr ((c, n) :: tl)) ->
  update root (location // c) (fun _ => d)
  = update root location (fun _ => Dir wr ((c, d) :: tl)).
Proof.
  intros Hl. unfold joinpath. rewrite update_app.
  apply (update_ext _ _ _ _ _ Hl).
  cbn. now rewrite String.eqb_refl.
Qed.

(** What is left of a directory when [rmtree] reports no error: nothing. *)
Lemma rmtree_contents_shape w es :
  exists rest,
    fst (rmtree_contents (Dir w es)) = Dir w rest
    /\ (snd (rmtree_contents (Dir w es)) = None -> rest = []).
Proof.
  cbn [rmtree_contents].
  match goal with
  | |- context [let (_, _) := ?g es in _] =>
    assert (G : snd (g es) = None -> fst (g es) = [])
  end.
  { induction es as [|[c child] tl IH]; [reflexivity|].
    destruct child as [| |t|w' es'].
    - destruct w; [exact IH|discriminate].
    - destruct w; [exact IH|discriminate].
    - destruct w; [exact IH|discriminate].
    - destruct (rmtree_contents (Dir w' es')) as [child' [e|]];
        [discriminate|].
      destruct w; [exact IH|discriminate]. }
  match goal with
  | |- context [let (_, _) := ?g es in _] => destruct (g es) as [rest err]
  end.
  exists rest. split; [reflexivity|exact G].
Qed.

(** One turn of the loop either removes the entry at the head of the
    directory, or fails and leaves that entry (possibly a subdirectory
    that lost some of its content) where it was. *)
Lemma clean_entry_confined w root location wr c n tl :
  lookup root location = Some (Dir wr ((c, n) :: tl)) ->
  let r := clean_entry (dir_entry location (c, n)) (with_fs w root) in
  (fst r = inr tt
   /\ snd r = with_fs w (update root location (fun _ => Dir wr tl)))
  \/ (exists e n',
        fst r = inl e
        /\ snd r = with_fs w
                     (update root location (fun _ => Dir wr ((c, n') :: tl)))).
Proof.
  intros Hl. cbv zeta.
  assert (Hunlink :
    forall k, (forall w' es', k <> Dir w' es') -> n = k ->
      let r := fs_op (fun r => os_remove r (location // c)) (with_fs w root) in
      (fst r = inr tt
       /\ snd r = with_fs w (update root location (fun _ => Dir wr tl)))
      \/ (exists e n',
            fst r = inl e
            /\ snd r = with_fs w
                         (update root location
                            (fun _ => Dir wr ((c, n') :: tl))))).
  { intros k Hk ->. cbv zeta. unfold fs_op, os_remove.
    change (fs (with_fs w root)) with root.
    destruct wr.
    - rewrite (os_unlink_entry root location _ c k Hl (find_entry_head _ _ _) Hk).
      rewrite remove_entry_head. left. split; reflexivity.
    - unfold os_unlink, joinpath. rewrite split_last_snoc.
      rewrite (resolve_lookup root true location _ Hl) by now right.
      rewrite find_entry_head. cbn.
      right. exists (OSError PermissionError), k. split; [reflexivity|].
      now rewrite (update_same_node _ _ _ Hl). }
  unfold clean_entry, dir_entry, bind, fs_get.
  cbn [fst snd entry_path entry_node].
  change (fs (with_fs w root)) with root.
  destruct n as [| |t|w' es'].
  - cbn [entry_is_dir entry_node andb].
    exact (Hunlink File ltac:(discriminate) eq_refl).
  - cbn [entry_is_dir entry_node andb].
    exact (Hunlink Special ltac:(discriminate) eq_refl).
  - unfold entry_is_symlink. cbn [entry_node negb]. rewrite andb_false_r.
    exact (Hunlink (Symlink t) ltac:(discriminate) eq_refl).
  - cbn [entry_is_dir entry_is_symlink entry_node andb negb].
    unfold fs_op. change (fs (with_fs w root)) with root. unfold rmtree.
    assert (Hc : lookup root (location // c) = Some (Dir w' es')).
    { apply (lookup_child _ _ _ _ _ _ Hl). apply find_entry_head. }
    rewrite (resolve_lookup root false _ _ Hc) by now left.
    destruct (rmtree_contents_shape w' es') as [rest [Hd Hrest]].
    destruct (rmtree_contents (Dir w' es')) as [d [e|]]; cbn [fst snd] in *;
      subst d.
    + right. exists (OSError e), (Dir w' rest). split; [reflexivity|].
      cbn [snd]. now rewrite (update_child _ _ _ _ _ _ _ Hl).
    + rewrite (Hrest eq_refl).
      unfold rmdir_at.
      change (split_last (location // c)) with (split_last (location ++ [c])).
      rewrite split_last_snoc.
      rewrite (update_child _ _ _ _ _ _ _ Hl).
      rewrite (lookup_update_same _ _ _ _ Hl).
      destruct wr.
      * rewrite remove_entry_head, update_update_same.
        left. split; reflexivity.
      * right. exists (OSError PermissionError), (Dir w' []).
        split; reflexivity.
Qed.

(** The loop, whatever happens in it, changes the location's directory
    into a directory and nothing else; when it ends without an exception
    the directory is empty. *)
Lemma clean_loop_confined w location wr es :
  forall root,
    lookup root location = Some (Dir wr es) ->
    let r := for_each (map (dir_entry location) es) clean_entry
               (with_fs w root) in
    exists rest,
      snd r = with_fs w (update root location (fun _ => Dir wr rest))
      /\ (fst r = inr tt -> rest = []).
Proof.
  induction es as [|[c n] tl IH]; intros root Hl; cbv zeta.
  - exists []. cbn. split; [|reflexivity].
    now rewrite (update_same_node _ _ _ Hl).
  - cbn [map for_each]. unfold bind.
    destruct (clean_entry_confined w root location wr c n tl Hl)
      as [[Hok Hw]|[e [n' [Herr Hw]]]];
      destruct (clean_entry (dir_entry location (c, n)) (with_fs w root))
        as [[e0|[]] w1]; cbn [fst snd] in *; try discriminate.
    + subst w1.
      destruct (IH (update root location (fun _ => Dir wr tl))
                  (lookup_update_same _ _ _ _ Hl)) as [rest [Hs Hr]].
      exists rest. rewrite update_update_same in Hs. split; assumption.
    + exists ((c, n') :: tl). split; [exact Hw|discriminate].
Qed.

Lemma ensure_clean_confined b location force w wr es :
  lookup (fs w) location = Some (Dir wr es) ->
  exists rest,
    snd (_ensure_clean b location force w)
    = with_fs w (update (fs w) location (fun _ => Dir wr rest))
    /\ (fst (_ensure_clean b location force w) = inr tt -> rest = []).
Proof.
  intros Hl.
  assert (Hr : resolve (fs w) true location = inr (location, Dir wr es))
    by (apply resolve_lookup; [exact Hl|now right]).
  assert (Hsame : with_fs w (update (fs w) location (fun _ => Dir wr es)) = w).
  { rewrite (update_same_node _ _ _ Hl). apply with_fs_same. }
  destruct es as [|e tl].
  - exists []. rewrite Hsame.
    rewrite ensure_clean_free; [split; reflexivity|].
    unfold occupied, path_exists, is_dir, iterdir. now rewrite Hr.
  - destruct force.
    + unfold _ensure_clean, bind, fs_get, fs_try, ret.
      unfold path_exists, is_dir, is_file, iterdir, scandir. rewrite Hr.
      cbn [negb map any_path].
      repeat (rewrite Hr; cbv beta iota).
      cbn [negb map any_path]. cbv beta iota.
      repeat (rewrite Hr; cbv beta iota).
      pose proof (clean_loop_confined w location wr (e :: tl) (fs w) Hl) as H.
      cbv zeta in H. rewrite with_fs_same in H. exact H.
    + exists (e :: tl). rewrite Hsame.
      rewrite ensure_clean_refuses; [split; [reflexivity|discriminate]|].
      unfold occupied, path_exists, is_dir, iterdir. now rewrite Hr.
Qed.

(** X7. Run on a directory, [_ensure_clean] never leaves it, whether it
    succeeds or fails and with [force] on or off: afterwards the location
    is still a directory with the same permission, and every path that is
    neither inside the location nor on the way to it holds what it
    held before. *)
Theorem cleanup_stays_inside (b : Backend) (location : Path) (force : bool)
    (w : World) (wr : bool) (es : list (string * node)) :
  lookup (fs w) location = Some (Dir wr es) ->
  (exists rest,
     lookup (fs (snd (_ensure_clean b location force w))) location
     = Some (Dir wr rest))
  /\ (forall q,
        (forall r, q <> location ++ r) -> (forall r, location <> q ++ r) ->
        lookup (fs (snd (_ensure_clean b location force w))) q
        = lookup (fs w) q)
  /\ resolved_cache (snd (_ensure_clean b location force w)) = resolved_cache w
  /\ log (snd (_ensure_clean b location force w)) = log w.
Proof.
  intros Hl.
  destruct (ensure_clean_confined b location force w wr es Hl) as [rest [Hs _]].
  rewrite Hs. cbn [fs with_fs resolved_cache log]. split; [|split; [|split]].
  - exists rest. now apply lookup_update_same with (m := Dir wr es).
  - intros q H1 H2. now apply lookup_update_outside.
  - reflexivity.
  - reflexivity.
Qed.

Lemma cleanup_stays_inside_witness :
  let r := _ensure_clean (backend_of VenvBackend None)
             ["home"; "me"; "locked"] true (world_of sample_tree) in
  (exists rest, lookup (fs (snd r)) ["home"; "me"; "locked"]
                = Some (Dir false rest))
  /\ (forall q,
        (forall r0, q <> ["home"; "me"; "locked"] ++ r0) ->
        (forall r0, ["home"; "me"; "locked"] <> q ++ r0) ->
        lookup (fs (snd r)) q = lookup sample_tree q)
  /\ resolved_cache (snd r) = None
  /\ log (snd r) = [].
Proof.
  exact (cleanup_stays_inside (backend_of VenvBackend None)
           ["home"; "me"; "locked"] true (world_of sample_tree)
           false [("keep", File)] eq_refl).
Defined.

(** X8. Whenever [_ensure_clean] returns normally on a directory, the
    directory is empty afterwards, so a second call, also without
    [force], passes and changes nothing. *)
Theorem cleanup_leaves_empty (b : Backend) (location : Path) (force : bool)
    (w w' : World) (wr : bool) (es : list (string * node)) :
  lookup (fs w) location = Some (Dir wr es) ->
  _ensure_clean b location force w = (inr tt, w') ->
  lookup (fs w') location = Some (Dir wr [])
  /\ _ensure_clean b location false w' = (inr tt, w').
Proof.
  intros Hl H.
  destruct (ensure_clean_confined b location force w wr es Hl) as [rest [Hs Hr]].
  rewrite H in Hs, Hr. cbn [fst snd] in Hs, Hr. rewrite (Hr eq_refl) in Hs.
  assert (Hl' : lookup (fs w') location = Some (Dir wr [])).
  { rewrite Hs. cbn [fs with_fs].
    now apply lookup_update_same with (m := Dir wr es). }
  split; [exact Hl'|].
  apply ensure_clean_free. unfold occupied, path_exists, is_dir, iterdir.
  rewrite (resolve_lookup _ true _ _ Hl') by now right. reflexivity.
Qed.

Lemma cleanup_leaves_empty_witness :
  lookup cleaned_tree ["home"; "me"; "MyApp"; ".venv"] = Some (Dir true [])
  /\ _ensure_clean (backend_of CondaBackend None)
       ["home"; "me"; "MyApp"; ".venv"] false (world_of cleaned_tree)
     = (inr tt, world_of cleaned_tree).
Proof.
  exact (cleanup_leaves_empty (backend_of CondaBackend None)
           ["home"; "me"; "MyApp"; ".venv"] true (world_of sample_tree)
           (world_of cleaned_tree) true
           [("pyvenv.cfg", File);
            ("cache", Symlink ["home"; "me"; "locked"]);
            ("lib", Dir true [("site.py", File)])]
           eq_refl eq_refl).
Defined.

(** X9. A location that is neither a regular file nor a directory (a
    fifo, a socket, a device) cannot be cleaned: with [force] the attempt
    to scan it raises [NotADirectoryError] and it is left in place. *)
Theorem cleanup_of_special_file (b : Backend) (location : Path) (w : World) :
  lookup (fs w) location = Some Special ->
  _ensure_clean b location true w = (inl (OSError NotADirectoryError), w).
Proof.
  intros Hl.
  assert (Hr : resolve (fs w) true location = inr (location, Special))
    by (apply resolve_lookup; [exact Hl|now right]).
  unfold _ensure_clean, bind, fs_get, fs_try, ret.
  unfold path_exists, is_dir, is_file, scandir. rewrite Hr. cbn [negb].
  repeat (rewrite Hr; cbv beta iota). reflexivity.
Qed.

Lemma cleanup_of_special_file_witness :
  _ensure_clean (backend_of VenvBackend None) ["run"; "venv.sock"] true
    (world_of (Dir true [("run", Dir true [("venv.sock", Special)])]))
  = (inl (OSError NotADirectoryError),
     world_of (Dir true [("run", Dir true [("venv.sock", Special)])])).
Proof.
  exact (cleanup_of_special_file (backend_of VenvBackend None)
           ["run"; "venv.sock"]
           (world_of (Dir true [("run", Dir true [("venv.sock", Special)])]))
           eq_refl).
Defined.

(** ** The exceptions of [create] *)







(** The flags for pip never look like a [python=] specifier. *)
Lemma pip_args_no_python k with_pip args :
  existsb (String.prefix "python=") (pip_args k with_pip ++ args)
  = existsb (String.prefix "python=") args.
Proof. rewrite existsb_app. now destruct k, with_pip. Qed.



(** ** The order of the steps of [create] *)

Lemma format_prompt_fs b prompt w : fs (snd (format_prompt b prompt w)) = fs w.
Proof.
  destruct prompt as [t|]; [|reflexivity]. cbn [format_prompt].
  unfold bind, lift, ret. pose proof (ident_fs b w) as Hi.
  destruct (ident b w) as [[e|i] w1]; [exact Hi|].
  now destruct (str_format t _).
Qed.

(** X11. A prompt template that cannot be formatted stops [create] before
    the cleanup: the exception of the formatting (a [KeyError],
    [IndexError] or [ValueError] of [str.format], or the failure to
    resolve the interpreter for [python_version]) is the one raised, the
    tree is the one the location step left (the initial one in in-project
    mode), so nothing has been deleted even with [force], and no process
    has been started.  Templates outside the modelled part of
    [str.format] are left out: Python may well format them. *)
Theorem bad_prompt_aborts_before_cleanup (b : Backend) (name : option string)
    (args : list string) (force in_project : bool) (prompt : option string)
    (with_pip : bool) (venv_name : option string) (w w0 : World)
    (location : Path) (e : exn) :
  (in_project = true /\ w0 = w)
  \/ (in_project = false
      /\ get_location b name venv_name w = (inr location, w0)) ->
  fst (format_prompt b prompt w0) = inl e ->
  e <> OutsideFormatFragment ->
  let r := create b name args force in_project prompt with_pip venv_name w in
  fst r = inl e
  /\ fs (snd r) = fs w0
  /\ spawned (log (snd r)) = spawned (log w).
Proof.
  intros Hloc Hp _. cbv zeta.
  assert (Hstep : exists loc,
            (if in_project then ret (root (project b) // ".venv")
             else get_location b name venv_name) w = (inr loc, w0)).
  { destruct Hloc as [[-> ->]|[-> H]]; eexists; [reflexivity|exact H]. }
  destruct Hstep as [loc Hstep].
  assert (Hq0 : spawned (log w0) = spawned (log w)).
  { destruct Hloc as [[_ ->]|[_ H]]; [reflexivity|].
    pose proof (quiet_get_location b name venv_name w) as Hq.
    now rewrite H in Hq. }
  unfold create. rewrite (bind_ok _ _ _ _ _ Hstep).
  pose proof (format_prompt_fs b prompt w0) as Hfs.
  pose proof (quiet_format_prompt b prompt w0) as Hq.
  destruct (format_prompt b prompt w0) as [[e'|p] w1] eqn:Ef; [|discriminate].
  cbn [fst snd] in *. injection Hp as ->.
  rewrite (bind_err _ _ _ _ _ Ef). cbn [fst snd].
  repeat split; [exact Hfs|now rewrite Hq].
Qed.

Lemma bad_prompt_aborts_before_cleanup_witness :
  let r := create (backend_of VenvBackend None) None [] true true
             (Some "{name}") true None (world_of sample_tree) in
  fst r = inl (KeyError "name")
  /\ fs (snd r) = sample_tree
  /\ spawned (log (snd r)) = [].
Proof.
  apply (bad_prompt_aborts_before_cleanup (backend_of VenvBackend None) None []
           true true (Some "{name}") true None (world_of sample_tree)
           (world_of sample_tree) [] (KeyError "name")).
  - left. split; reflexivity.
  - reflexivity.
  - discriminate.
Defined.




(** ** Conda *)

Lemma ident_conda_spec b :
  kind b = CondaBackend -> truthy (python b) = true ->
  ident b = ret (the_str (python b)).
Proof. intros Hk Ht. unfold ident. now rewrite Hk, Ht. Qed.

(** X13. The conda backend with a spec makes no use of the prompt: a
    template that formats gives the very same run of [create], result and
    world, as no prompt at all. *)
Theorem conda_ignores_prompt (b : Backend) (name : option string)
    (args : list string) (force in_project : bool) (template s : string)
    (with_pip : bool) (venv_name : option string) (w : World) :
  kind b = CondaBackend ->
  truthy (python b) = true ->
  str_format template
    [("project_name", str_or (lower (path_name (root (project b)))) "virtualenv");
     ("python_version", the_str (python b))] = inr s ->
  create b name args force in_project (Some template) with_pip venv_name w
  = create b name args force in_project None with_pip venv_name w.
Proof.
  intros Hk Ht Hs.
  assert (Hf : forall w0,
            format_prompt b (Some template) w0 = (inr (Some s), w0)).
  { intros w0. cbn [format_prompt]. rewrite (ident_conda_spec b Hk Ht).
    unfold bind, ret, lift. now rewrite Hs. }
  assert (Hp : forall location extra p w0,
            perform_create b location extra p w0
            = perform_create b location extra None w0).
  { intros. unfold perform_create. now rewrite Hk. }
  rewrite !create_split. unfold create_preparation, bind.
  destruct ((if in_project then ret (root (project b) // ".venv")
             else get_location b name venv_name) w) as [[e|location] w0];
    [reflexivity|].
  rewrite Hf. cbn [format_prompt]. unfold ret at 2.
  destruct (_ensure_clean b location force w0) as [[e|[]] w1]; [reflexivity|].
  unfold ret. now rewrite Hp.
Qed.

Lemma conda_ignores_prompt_witness :
  create (backend_of CondaBackend (Some "3.11")) None ["--quiet"] true true
    (Some "{project_name}-{python_version}") true None (world_of sample_tree)
  = create (backend_of CondaBackend (Some "3.11")) None ["--quiet"] true true
      None true None (world_of sample_tree).
Proof.
  exact (conda_ignores_prompt (backend_of CondaBackend (Some "3.11")) None
           ["--quiet"] true true "{project_name}-{python_version}"
           "myapp-3.11" true None (world_of sample_tree)
           eq_refl eq_refl eq_refl).
Defined.

Lemma format_go_brace_free kwargs s :
  brace_free s = true -> format_go kwargs Text s = inr s.
Proof.
  induction s as [|c s IH]; [reflexivity|]. cbn [brace_free format_go].
  intros H. apply andb_true_iff in H. destruct H as [Hc Hs].
  rewrite negb_true_iff in Hc. apply orb_false_iff in Hc.
  destruct Hc as [-> ->]. now rewrite (IH Hs).
Qed.

(** X14. A prompt template without braces is handed to the tool as it is:
    formatting returns the template itself. *)
Theorem plain_prompt_verbatim (b : Backend) (template : string) (w : World)
    (i : string) (w1 : World) :
  brace_free template = true ->
  ident b w = (inr i, w1) ->
  format_prompt b (Some template) w = (inr (Some template), w1).
Proof.
  intros Hb Hi. cbn [format_prompt]. rewrite (bind_ok _ _ _ _ _ Hi).
  unfold bind, lift, ret, str_format. now rewrite format_go_brace_free.
Qed.

Lemma plain_prompt_verbatim_witness :
  format_prompt (backend_of UvBackend None) (Some "my project (dev)")
    (world_of sample_tree)
  = (inr (Some "my project (dev)"),
     with_cache (world_of sample_tree) (Some sample_python)).
Proof.
  exact (plain_prompt_verbatim (backend_of UvBackend None) "my project (dev)"
           (world_of sample_tree) "3.11.2"
           (with_cache (world_of sample_tree) (Some sample_python))
           eq_refl eq_refl).
Defined.

Lemma resolves_nothing_ret {A} (a : A) : resolves_nothing (ret a).
Proof. intros w. split; reflexivity. Qed.

Lemma resolves_nothing_raise {A} e : resolves_nothing (@raise A e).
Proof. intros w. split; reflexivity. Qed.

Lemma resolves_nothing_lift {A} (r : exn + A) : resolves_nothing (lift r).
Proof. intros w. split; reflexivity. Qed.

Lemma resolves_nothing_bind {A B} (c : M A) (k : A -> M B) :
  resolves_nothing c -> (forall a, resolves_nothing (k a)) ->
  resolves_nothing (bind c k).
Proof.
  intros Hc Hk w. unfold bind. specialize (Hc w).
  destruct (c w) as [[e|a] w1]; [exact Hc|].
  destruct (Hk a w1) as [H1 H2]. cbn [snd] in Hc. destruct Hc as [Hc1 Hc2].
  split; congruence.
Qed.

Lemma resolves_nothing_fs_op f : resolves_nothing (fs_op f).
Proof. intros w. unfold fs_op. destruct (f (fs w)) as [r [e|]]; split; reflexivity. Qed.

Lemma resolves_nothing_fs_get {A} (f : node -> A) : resolves_nothing (fs_get f).
Proof. intros w. split; reflexivity. Qed.

Lemma resolves_nothing_fs_try {A} (f : node -> os_error + A) :
  resolves_nothing (fs_try f).
Proof. intros w. unfold fs_try. destruct (f (fs w)); split; reflexivity. Qed.

Lemma resolves_nothing_for_each {A} (xs : list A) body :
  (forall x, resolves_nothing (body x)) -> resolves_nothing (for_each xs body).
Proof.
  intros Hb. induction xs as [|x xs IH]; [apply resolves_nothing_ret|].
  apply resolves_nothing_bind; [apply Hb|intros _; exact IH].
Qed.

Lemma discoveries_app l l' : discoveries (l ++ l') = discoveries l + discoveries l'.
Proof.
  induction l as [|[s r|cmd] l IH]; simpl; [reflexivity|now rewrite IH|exact IH].
Qed.

Lemma resolves_nothing_subprocess_call b cmd :
  resolves_nothing (subprocess_call b cmd).
Proof.
  intros w. pose proof (log_subprocess_call b cmd w) as Hl.
  split.
  - unfold subprocess_call.
    destruct (run_process (project b) cmd (fs (with_event w (Spawn cmd))))
      as [[code|e] r]; [destruct (code =? 0)%Z|]; reflexivity.
  - rewrite Hl, discoveries_app. cbn. now rewrite Nat.add_0_r.
Qed.

Lemma resolves_nothing_ensure_clean b location force :
  resolves_nothing (_ensure_clean b location force).
Proof.
  unfold _ensure_clean.
  apply resolves_nothing_bind; [apply resolves_nothing_fs_get|]. intros ex.
  destruct (negb ex); [apply resolves_nothing_ret|].
  apply resolves_nothing_bind; [apply resolves_nothing_fs_get|]. intros d.
  apply resolves_nothing_bind.
  { destruct d; [|apply resolves_nothing_ret].
    apply resolves_nothing_bind; [apply resolves_nothing_fs_try|].
    intros; apply resolves_nothing_ret. }
  intros empty. destruct empty; [apply resolves_nothing_ret|].
  destruct (negb force); [apply resolves_nothing_raise|].
  apply resolves_nothing_bind; [apply resolves_nothing_fs_get|]. intros f.
  destruct f; [apply resolves_nothing_fs_op|].
  apply resolves_nothing_bind; [apply resolves_nothing_fs_try|]. intros entries.
  apply resolves_nothing_for_each. intros e.
  apply resolves_nothing_bind; [apply resolves_nothing_fs_get|].
  intros d'. destruct (d' && negb (entry_is_symlink e));
    apply resolves_nothing_fs_op.
Qed.

(** X15. The conda backend with a spec never resolves an interpreter:
    through the whole of [create], whatever the arguments and the
    outcome, the cache stays as it was and discovery is not asked once. *)
Theorem conda_spec_never_resolves (b : Backend) (name : option string)
    (args : list string) (force in_project : bool) (prompt : option string)
    (with_pip : bool) (venv_name : option string) (w : World) :
  kind b = CondaBackend ->
  truthy (python b) = true ->
  resolved_cache
    (snd (create b name args force in_project prompt with_pip venv_name w))
  = resolved_cache w
  /\ discoveries
       (log (snd (create b name args force in_project prompt with_pip
                    venv_name w)))
     = discoveries (log w).
Proof.
  intros Hk Ht. revert w.
  change (resolves_nothing
            (create b name args force in_project prompt with_pip venv_name)).
  pose proof (ident_conda_spec b Hk Ht) as Hi.
  unfold create. apply resolves_nothing_bind.
  { destruct in_project; [apply resolves_nothing_ret|].
    unfold get_location.
    destruct (truthy name && truthy venv_name); [apply resolves_nothing_raise|].
    apply resolves_nothing_bind; [apply resolves_nothing_fs_get|]. intros d.
    apply resolves_nothing_bind.
    { destruct (negb d); [apply resolves_nothing_fs_op|apply resolves_nothing_ret]. }
    intros _. apply resolves_nothing_bind; [|intros; apply resolves_nothing_ret].
    destruct (negb (truthy venv_name)); [|apply resolves_nothing_ret].
    apply resolves_nothing_bind; [|intros; apply resolves_nothing_ret].
    destruct (truthy name); [apply resolves_nothing_ret|].
    rewrite Hi. apply resolves_nothing_ret. }
  intros location. apply resolves_nothing_bind.
  { destruct prompt as [t|]; [|apply resolves_nothing_ret]. cbn [format_prompt].
    rewrite Hi. apply resolves_nothing_bind; [apply resolves_nothing_ret|].
    intros i. apply resolves_nothing_bind; [apply resolves_nothing_lift|].
    intros; apply resolves_nothing_ret. }
  intros p. apply resolves_nothing_bind; [apply resolves_nothing_ensure_clean|].
  intros _. apply resolves_nothing_bind; [|intros; apply resolves_nothing_ret].
  unfold perform_create. rewrite Hk, Ht.
  apply resolves_nothing_bind; [apply resolves_nothing_ret|].
  intros v. destruct (existsb _ _); [apply resolves_nothing_raise|].
  apply resolves_nothing_subprocess_call.
Qed.

Lemma conda_spec_never_resolves_witness :
  let r := create {| kind := CondaBackend;
                     project := sample_project_with None [] (exits_with 0);
                     python := Some "3.13" |}
             None ["numpy"] false false (Some "{python_version}") true None
             (world_of fresh_tree) in
  resolved_cache (snd r) = None /\ discoveries (log (snd r)) = 0.
Proof.
  exact (conda_spec_never_resolves
           {| kind := CondaBackend;
              project := sample_project_with None [] (exits_with 0);
              python := Some "3.13" |}
           None ["numpy"] false false (Some "{python_version}") true None
           (world_of fresh_tree) eq_refl eq_refl).
Defined.

(** ** End to end in in-project mode, for every backend *)

Lemma prompt_option_flag prompt :
  prompt_option prompt
  = match prompt with
    | Some p => if (p =? "")%string then [] else [("--prompt=" ++ p)%string]
    | None => []
    end.
Proof.
  destruct prompt as [p|]; [|reflexivity]. unfold prompt_option, truthy. simpl.
  now destruct (p =? "")%string.
Qed.

Lemma subprocess_call_ok b cmd w r' :
  run_process (project b) cmd (fs w) = (Exited 0, r') ->
  subprocess_call b cmd w = (inr tt, with_fs (with_event w (Spawn cmd)) r').
Proof.
  intros H. unfold subprocess_call.
  change (fs (with_event w (Spawn cmd))) with (fs w). now rewrite H.
Qed.

(** With the interpreter resolved, a successful tool and, for conda, no
    [python=] among the arguments, [perform_create] runs the expected
    command and nothing else. *)
Lemma perform_create_command b location extra p w py r' :
  fst (_resolved_interpreter b w) = inr py ->
  (kind b = CondaBackend -> existsb (String.prefix "python=") extra = false) ->
  run_process (project b) (expected_command b py location p extra) (fs w)
  = (Exited 0, r') ->
  let r := perform_create b location extra p w in
  fst r = inr tt
  /\ spawned (log (snd r))
     = spawned (log w) ++ [expected_command b py location p extra]
  /\ fs (snd r) = r'.
Proof.
  intros Hres Hconda Hrun. cbv zeta.
  pose proof (resolved_interpreter_fs b w) as Hfs.
  pose proof (quiet_resolved_interpreter b w) as Hq.
  destruct (_resolved_interpreter b w) as [[e|py'] w2] eqn:Er; [discriminate|].
  cbn [fst snd] in *. injection Hres as ->.
  assert (Hcall : forall cmd,
            cmd = expected_command b py location p extra ->
            let r := subprocess_call b cmd w2 in
            fst r = inr tt
            /\ spawned (log (snd r))
               = spawned (log w) ++ [expected_command b py location p extra]
            /\ fs (snd r) = r').
  { intros cmd ->. cbv zeta. rewrite <- Hfs in Hrun.
    rewrite (subprocess_call_ok _ _ _ _ Hrun). cbn [fst snd fs with_fs log].
    repeat split. cbn [with_event log]. rewrite spawned_app, Hq. reflexivity. }
  unfold perform_create, expected_command in *.
  rewrite prompt_option_flag.
  destruct (kind b) eqn:Ek.
  - rewrite (bind_ok _ _ _ _ _ Er). now apply Hcall.
  - rewrite (bind_ok _ _ _ _ _ Er). now apply Hcall.
  - rewrite (bind_ok _ _ _ _ _ Er). now apply Hcall.
  - rewrite (Hconda eq_refl).
    assert (Hstep : forall (k : string -> M unit),
              (python_ver <-
                 (python <- _resolved_interpreter b ;;
                  ret (str_of_nat (major python) ++ "."
                       ++ str_of_nat (minor python))%string) ;;
               k python_ver) w
              = k (str_of_nat (major py) ++ "." ++ str_of_nat (minor py))%string
                  w2).
    { intros k. unfold bind, ret. now rewrite Er. }
    destruct (python b) as [spec|] eqn:Es; cbn [truthy the_str].
    + destruct (spec =? "")%string eqn:Ee; cbn [negb].
      * rewrite Hstep. now apply Hcall.
      * assert (Hrun' : run_process (project b)
                          (["conda"; "create"; "--yes"; "--prefix";
                            str_path location; ("python=" ++ spec)%string]
                           ++ extra) (fs w) = (Exited 0, r'))
          by exact Hrun.
        unfold bind at 1 2 3. unfold ret at 1 2 3.
        rewrite (subprocess_call_ok _ _ _ _ Hrun').
        cbn [fst snd fs with_fs log with_event]. repeat split.
        now rewrite spawned_app.
    + rewrite Hstep. now apply Hcall.
Qed.

Lemma format_prompt_resolved b prompt w py :
  fst (_resolved_interpreter b w) = inr py ->
  fst (_resolved_interpreter b (snd (format_prompt b prompt w))) = inr py.
Proof.
  intros Hres. destruct prompt as [t|]; [|exact Hres]. cbn [format_prompt].
  assert (Hi : fst (_resolved_interpreter b (snd (ident b w))) = inr py).
  { assert (H : fst (_resolved_interpreter b (snd (Backend_ident b w))) = inr py).
    { unfold Backend_ident, bind, ret.
      destruct (_resolved_interpreter b w) as [[e|py'] w1] eqn:Er;
        [discriminate|].
      cbn in Hres. injection Hres as ->. cbn [snd].
      pose proof (resolved_interpreter_cached _ _ _ _ Er) as Hc.
      now rewrite (resolved_interpreter_hit _ _ _ Hc). }
    unfold ident. destruct (kind b); try exact H.
    destruct (truthy (python b)); [exact Hres|exact H]. }
  unfold bind, lift, ret.
  destruct (ident b w) as [[e|i] w1]; [exact Hi|].
  now destruct (str_format t _).
Qed.

(** X16. In in-project mode, for every backend: when the interpreter
    resolves, the prompt formats, [.venv] under the project root is absent
    or an empty directory, the caller passes no [python=] argument to
    conda, and the tool exits with status [0], [create] returns
    [<project root>/.venv], has run exactly the expected command, with the
    flags for pip in front of the caller's arguments, and leaves the tree
    as the tool left it. *)
Theorem in_project_create_command (b : Backend) (name : option string)
    (args : list string) (force : bool) (prompt p : option string)
    (with_pip : bool) (venv_name : option string) (w : World)
    (py : PythonInfo) (r' : node) :
  fst (_resolved_interpreter b w) = inr py ->
  fst (format_prompt b prompt w) = inr p ->
  occupied (fs w) (root (project b) // ".venv") = false ->
  (kind b = CondaBackend -> existsb (String.prefix "python=") args = false) ->
  run_process (project b)
    (expected_command b py (root (project b) // ".venv") p
       (pip_args (kind b) with_pip ++ args)) (fs w) = (Exited 0, r') ->
  let r := create b name args force true prompt with_pip venv_name w in
  fst r = inr (root (project b) // ".venv")
  /\ spawned (log (snd r))
     = spawned (log w)
       ++ [expected_command b py (root (project b) // ".venv") p
             (pip_args (kind b) with_pip ++ args)]
  /\ fs (snd r) = r'.
Proof.
  intros Hres Hp Hfree Hconda Hrun. cbv zeta.
  pose proof (format_prompt_fs b prompt w) as Hfs.
  pose proof (quiet_format_prompt b prompt w) as Hq.
  pose proof (format_prompt_resolved b prompt w py Hres) as Hres1.
  destruct (format_prompt b prompt w) as [[e|p'] w1] eqn:Ef; [discriminate|].
  cbn [fst snd] in *. injection Hp as ->.
  assert (Hfree1 : occupied (fs w1) (root (project b) // ".venv") = false)
    by now rewrite Hfs.
  assert (Hconda1 : kind b = CondaBackend ->
            existsb (String.prefix "python=")
              (pip_args (kind b) with_pip ++ args) = false).
  { intros Hk. rewrite pip_args_no_python. now apply Hconda. }
  rewrite <- Hfs in Hrun.
  pose proof (perform_create_command b (root (project b) // ".venv")
                (pip_args (kind b) with_pip ++ args) p w1 py r'
                Hres1 Hconda1 Hrun) as Hperf.
  cbv zeta in Hperf.
  assert (Hc : create b name args force true prompt with_pip venv_name w
               = (inr (root (project b) // ".venv"),
                  snd (perform_create b (root (project b) // ".venv")
                         (pip_args (kind b) with_pip ++ args) p w1))).
  { unfold create. unfold bind at 1. unfold ret at 1.
    rewrite (bind_ok _ _ _ _ _ Ef).
    rewrite (bind_ok _ _ _ _ _ (ensure_clean_free b _ force w1 Hfree1)).
    unfold bind, ret.
    destruct (perform_create b (root (project b) // ".venv")
                (pip_args (kind b) with_pip ++ args) p w1) as [[e|[]] w2];
      [destruct Hperf; discriminate|reflexivity]. }
  rewrite Hc. cbn [fst snd]. destruct Hperf as [_ [Hs Hr]].
  repeat split; [now rewrite Hs, Hq|exact Hr].
Qed.

Lemma in_project_create_command_witness :
  let b := {| kind := CondaBackend;
              project := sample_project_with (Some sample_python) []
                           (exits_with 0);
              python := None |} in
  let r := create b None ["numpy"] false true (Some "ignored") true None
             (world_of bare_tree) in
  fst r = inr ["home"; "me"; "MyApp"; ".venv"]
  /\ spawned (log (snd r))
     = [["conda"; "create"; "--yes"; "--prefix"; "/home/me/MyApp/.venv";
         "python=3.11"; "pip"; "numpy"]]
  /\ fs (snd r) = bare_tree.
Proof.
  cbv zeta.
  exact (in_project_create_command
           {| kind := CondaBackend;
              project := sample_project_with (Some sample_python) []
                           (exits_with 0);
              python := None |}
           None ["numpy"] false (Some "ignored") (Some "ignored") true None
           (world_of bare_tree) sample_python bare_tree
           eq_refl eq_refl eq_refl (fun _ => eq_refl) eq_refl).
Defined.

(** * Cleaning a location reached through links *)










